(** * Android launcher-icon generator: [scripts/generate_icons.py]

    A shallow embedding of the script and of the platform it talks to
    (Pillow and the [os] module), followed by the properties of the
    generator that the specification states.

    The script is straight-line Python around five library calls inside one
    [try]/[except Exception] block.  The embedding keeps that shape:

    - the platform (file system, image codec) is an interface, [Platform];
      the laws the proofs rely on are collected in [PlatformLaws];
    - Python code runs in a state-and-exception monad [M] over a [World]
      that holds the file system, what was printed, and the history of
      library calls with their outcome;
    - [SimPlatform] is a small executable platform satisfying the laws, on
      which the theorems are instantiated;
    - the script is first read on a standard output that takes every line;
      [Console] is the script on a standard output that may refuse a line
      ([print] raises), and agrees with the first reading when none is
      refused. *)

From Stdlib Require Import String Ascii ZArith List Lia Bool DecimalString.
Import ListNotations.
Open Scope string_scope.
Open Scope Z_scope.

(** ** Python values *)

(** An instance of (a subclass of) [Exception]: its class and [str(e)].
    [KeyboardInterrupt] and the other [BaseException]-only classes are not
    instances of [Exception] and are not values of this type. *)
Record exc := Exception { exc_class : string; exc_str : string }.

(** A decoded Pillow image: [img.mode], [img.size] = (width, height) and
    the raster data. *)
Record Image := mkImage { mode : string; size : Z * Z; pixels : list Z }.

(** [PIL.Image.Resampling]. *)
Inductive Resampling :=
| NEAREST | LANCZOS | BILINEAR | BICUBIC | BOX | HAMMING.

(** [str(n)] for a Python [int]. *)
Definition str_int (n : Z) : string := NilZero.string_of_int (Z.to_int n).

(** [s.endswith('/')]. *)
Fixpoint endswith_sep (s : string) : bool :=
  match s with
  | EmptyString => false
  | String c EmptyString => Ascii.eqb c "/"
  | String _ s' => endswith_sep s'
  end.

(** [os.path.join(a, b)] of [posixpath], two arguments. *)
Definition os_path_join (a b : string) : string :=
  if String.prefix "/" b then b
  else if (String.eqb a "" || endswith_sep a)%bool then a ++ b
  else a ++ "/" ++ b.

(** ** The platform *)

(** What the script calls, as functions of the file-system state.  A call
    that only reads has no file system in its result; [sys_makedirs] and
    [sys_save] return the new file system together with the exception they
    raised, if any.  [isdir] and [read_file] observe a file system;
    [encode img fmt] is the byte content [img.save(_, fmt)] writes. *)
Class Platform := {
  FS : Type;
  isdir : string -> FS -> bool;
  read_file : string -> FS -> option string;
  encode : Image -> string -> string;
  sys_path_exists : string -> FS -> bool;
  sys_open : string -> FS -> exc + Image;
  sys_convert : Image -> string -> exc + Image;
  sys_makedirs : string -> bool -> FS -> option exc * FS;
  sys_resize : Image -> Z * Z -> Resampling -> exc + Image;
  sys_save : Image -> string -> string -> FS -> option exc * FS
}.

(** The contract of Pillow and of the file system that the proofs use.
    Paths are compared as strings: two different strings name two different
    files (no symbolic links, no [a//b]). *)
Class PlatformLaws (P : Platform) : Prop := {
  convert_mode : forall img m img',
    sys_convert img m = inr img' -> mode img' = m;
  resize_size : forall img sz f img',
    sys_resize img sz f = inr img' -> size img' = sz /\ mode img' = mode img;
  makedirs_isdir : forall p eo fs fs',
    sys_makedirs p eo fs = (None, fs') -> isdir p fs' = true;
  makedirs_files : forall p eo fs r fs' q,
    sys_makedirs p eo fs = (r, fs') -> read_file q fs' = read_file q fs;
  makedirs_dirs : forall p eo fs r fs' q,
    sys_makedirs p eo fs = (r, fs') -> isdir q fs = true -> isdir q fs' = true;
  save_file : forall img p fmt fs fs',
    sys_save img p fmt fs = (None, fs') ->
    read_file p fs' = Some (encode img fmt);
  save_files : forall img p fmt fs r fs' q,
    sys_save img p fmt fs = (r, fs') -> q <> p ->
    read_file q fs' = read_file q fs;
  save_dirs : forall img p fmt fs r fs' q,
    sys_save img p fmt fs = (r, fs') -> isdir q fs = true -> isdir q fs' = true
}.

(** ** Library calls and their history *)

Inductive call :=
| exists_call (path : string)
| open_call (path : string)
| convert_call (img : Image) (to_mode : string)
| makedirs_call (path : string) (exist_ok : bool)
| resize_call (img : Image) (sz : Z * Z) (resample : Resampling)
| save_call (img : Image) (path : string) (format : string).

(** One entry of the history: the call and the exception it raised. *)
Definition event : Type := call * option exc.

Definition returned (c : call) : event := (c, None).
Definition raised (c : call) (e : exc) : event := (c, Some e).

(** Does this call change the file system? *)
Definition writes (c : call) : bool :=
  match c with
  | makedirs_call _ _ | save_call _ _ _ => true
  | _ => false
  end.

Section Generator.

Context {P : Platform}.

(** The state a run threads: the file system, the lines printed so far and
    the library calls made so far, oldest first. *)
Record World := mkWorld {
  fs : FS;
  stdout : list string;
  calls : list event
}.

(** A fresh process on file system [f]. *)
Definition boot (f : FS) : World := mkWorld f [] [].

Definition M (A : Type) : Type := World -> (exc + A) * World.

Definition ret {A} (a : A) : M A := fun w => (inr a, w).

Definition bind {A B} (m : M A) (k : A -> M B) : M B :=
  fun w => match m w with
           | (inr a, w') => k a w'
           | (inl e, w') => (inl e, w')
           end.

(** [try: body / except Exception as e: handler e]. *)
Definition try_except {A} (body : M A) (handler : exc -> M A) : M A :=
  fun w => match body w with
           | (inl e, w') => handler e w'
           | r => r
           end.

Notation "x <- m ;; k" := (bind m (fun x => k))
  (at level 61, m at next level, right associativity).
Notation "m ;; k" := (bind m (fun _ => k))
  (at level 61, right associativity).

(** [for x in l: body x]. *)
Fixpoint for_in {X} (l : list X) (body : X -> M unit) : M unit :=
  match l with
  | [] => ret tt
  | x :: l' => body x ;; for_in l' body
  end.

Definition record (ev : event) (f : FS) (w : World) : World :=
  mkWorld f (stdout w) (calls w ++ [ev]).

(** [print(line)] on a standard output that takes every line (a UTF-8
    terminal).  [Console.print] is [print] on one that may refuse. *)
Definition print (line : string) : M unit :=
  fun w => (inr tt, mkWorld (fs w) (stdout w ++ [line]) (calls w)).

(** [os.path.exists(path)]. *)
Definition os_path_exists (path : string) : M bool :=
  fun w => (inr (sys_path_exists path (fs w)),
            record (returned (exists_call path)) (fs w) w).

(** A call that reads: the file system is left as it is. *)
Definition reading {A} (c : call) (r : exc + A) : M A :=
  fun w => match r with
           | inl e => (inl e, record (raised c e) (fs w) w)
           | inr a => (inr a, record (returned c) (fs w) w)
           end.

(** A call that writes. *)
Definition writing (c : call) (run : FS -> option exc * FS) : M unit :=
  fun w => match run (fs w) with
           | (Some e, f') => (inl e, record (raised c e) f' w)
           | (None, f') => (inr tt, record (returned c) f' w)
           end.

(** [Image.open(path)]. *)
Definition Image_open (path : string) : M Image :=
  fun w => reading (open_call path) (sys_open path (fs w)) w.

(** [img.convert(to_mode)]. *)
Definition convert (img : Image) (to_mode : string) : M Image :=
  reading (convert_call img to_mode) (sys_convert img to_mode).

(** [os.makedirs(path, exist_ok=exist_ok)]. *)
Definition os_makedirs (path : string) (exist_ok : bool) : M unit :=
  writing (makedirs_call path exist_ok) (sys_makedirs path exist_ok).

(** [img.resize(sz, resample)]. *)
Definition resize (img : Image) (sz : Z * Z) (resample : Resampling) : M Image :=
  reading (resize_call img sz resample) (sys_resize img sz resample).

(** [img.save(path, format)]. *)
Definition save (img : Image) (path format : string) : M unit :=
  writing (save_call img path format) (sys_save img path format).

(** ** The script *)

(** The [sizes] dict; a Python dict iterates in insertion order. *)
Definition sizes : list (string * Z) :=
  [ ("mipmap-mdpi", 48);
    ("mipmap-hdpi", 72);
    ("mipmap-xhdpi", 96);
    ("mipmap-xxhdpi", 144);
    ("mipmap-xxxhdpi", 192) ].

(** The body of the [for folder, size in sizes.items()] loop. *)
Definition icon_step (source_img : Image) (output_dir : string)
    (entry : string * Z) : M unit :=
  let '(folder, size) := entry in
  let folder_path := os_path_join output_dir folder in
  os_makedirs folder_path true ;;
  resized_img <- resize source_img (size, size) LANCZOS ;;
  let output_path := os_path_join folder_path "ic_launcher.png" in
  save resized_img output_path "PNG" ;;
  print ("Generated: " ++ output_path ++ " (" ++ str_int size ++ "x"
         ++ str_int size ++ ")").

(** The [try] block. *)
Definition try_block (source_path output_dir : string) : M unit :=
  source_img <- Image_open source_path ;;
  print ("Loaded source image: " ++ source_path) ;;
  source_img <- (if negb (String.eqb (mode source_img) "RGBA")
                 then convert source_img "RGBA"
                 else ret source_img) ;;
  for_in sizes (icon_step source_img output_dir) ;;
  print "✅ Android icons generated successfully!".

(** The [except Exception as e] block. *)
Definition except_block (e : exc) : M unit :=
  print ("❌ Error: " ++ exc_str e) ;;
  print "Make sure you have Pillow installed: pip install Pillow".

(** [generate_android_icons(source_path, output_dir)]; the value is [None]. *)
Definition generate_android_icons (source_path output_dir : string) : M unit :=
  try_except (try_block source_path output_dir) except_block.

Definition source_image : string := "assets/images/app_logo.png".
Definition android_res_dir : string := "android/app/src/main/res".

(** The [if __name__ == "__main__"] block. *)
Definition main : M unit :=
  found <- os_path_exists source_image ;;
  if found then generate_android_icons source_image android_res_dir
  else
    print ("❌ Source image not found: " ++ source_image) ;;
    print "Please save your logo image as assets/images/app_logo.png".

(** The exit status of the interpreter: 0 when the script runs to its end,
    1 when an exception reaches the top level. *)
Definition exit_status (r : exc + unit) : Z :=
  match r with inr _ => 0 | inl _ => 1 end.

(** ** Vocabulary for the statements *)

(** [folder_path] and [output_path] of the loop body, for a label. *)
Definition icon_dir (output_dir folder : string) : string :=
  os_path_join output_dir folder.

Definition icon_path (output_dir folder : string) : string :=
  os_path_join (icon_dir output_dir folder) "ic_launcher.png".

(** The lines the script prints. *)
Definition loaded_line (source_path : string) : string :=
  "Loaded source image: " ++ source_path.

Definition generated_line (output_dir : string) (entry : string * Z) : string :=
  "Generated: " ++ icon_path output_dir (fst entry) ++ " ("
    ++ str_int (snd entry) ++ "x" ++ str_int (snd entry) ++ ")".

Definition success_line : string := "✅ Android icons generated successfully!".

Definition error_line (e : exc) : string := "❌ Error: " ++ exc_str e.

Definition hint_line : string :=
  "Make sure you have Pillow installed: pip install Pillow".

Definition not_found_lines : list string :=
  [ "❌ Source image not found: assets/images/app_logo.png";
    "Please save your logo image as assets/images/app_logo.png" ].

(** What [source_img.resize((size, size), LANCZOS)] returns, when it
    returns. *)
Definition resized (img : Image) (size : Z) : Image :=
  match sys_resize img (size, size) LANCZOS with
  | inr r => r
  | inl _ => img
  end.

(** The three library calls of one iteration, in program order, and the
    calls of the whole loop over a table. *)
Definition entry_calls (img : Image) (output_dir : string)
    (entry : string * Z) : list call :=
  [ makedirs_call (icon_dir output_dir (fst entry)) true;
    resize_call img (snd entry, snd entry) LANCZOS;
    save_call (resized img (snd entry)) (icon_path output_dir (fst entry)) "PNG" ].

Definition plan (img : Image) (output_dir : string)
    (table : list (string * Z)) : list call :=
  flat_map (entry_calls img output_dir) table.

(** A call works on a table entry: it creates the entry's directory, resizes
    to the entry's size or saves to the entry's file. *)
Definition touches (output_dir : string) (entry : string * Z) (c : call) : Prop :=
  match c with
  | makedirs_call p _ => p = icon_dir output_dir (fst entry)
  | resize_call _ sz _ => sz = (snd entry, snd entry)
  | save_call _ p _ => p = icon_path output_dir (fst entry)
  | _ => False
  end.

(** The paths of the [save] calls that returned, oldest first. *)
Fixpoint saved_paths (h : list event) : list string :=
  match h with
  | [] => []
  | (save_call _ p _, None) :: h' => p :: saved_paths h'
  | _ :: h' => saved_paths h'
  end.

(** The world a fresh process leaves after
    [generate_android_icons(source_path, output_dir)] on file system [f]. *)
Definition run (source_path output_dir : string) (f : FS) : World :=
  snd (generate_android_icons source_path output_dir (boot f)).

(** No library call of the history raised. *)
Definition succeeded (w : World) : bool :=
  forallb (fun ev : event => match snd ev with None => true | Some _ => false end)
          (calls w).

(** A label that [os.path.join] appends as a directory name: not absolute,
    not empty, no trailing separator. *)
Definition label_ok (l : string) : bool :=
  (negb (String.prefix "/" l) && negb (String.eqb l "")
   && negb (endswith_sep l))%bool.

(** The separator [os.path.join a _] inserts after [a]. *)
Definition sep_after (a : string) : string :=
  if (String.eqb a "" || endswith_sep a)%bool then "" else "/".

(** The table is well formed: its labels differ, its sizes differ, and
    every label is a plain directory name. *)
Definition table_ok (es : list (string * Z)) : Prop :=
  NoDup (map fst es) /\ NoDup (map snd es)
  /\ Forall (fun en => label_ok (fst en) = true) es.

(** The calls of an iteration that come after the directory is made. *)
Definition resize_or_save (c : call) : bool :=
  match c with
  | resize_call _ _ _ | save_call _ _ _ => true
  | _ => false
  end.

(** *** Big-step description of the loop and of a whole run *)

(** The world after the iteration for [(l, s)] raised [e]. *)
Inductive step_raises (img : Image) (out l : string) (s : Z) (w : World)
  : exc -> World -> Prop :=
| raises_makedirs e f1 :
    sys_makedirs (icon_dir out l) true (fs w) = (Some e, f1) ->
    step_raises img out l s w e
      (mkWorld f1 (stdout w)
         (calls w ++ [raised (makedirs_call (icon_dir out l) true) e]))
| raises_resize e f1 :
    sys_makedirs (icon_dir out l) true (fs w) = (None, f1) ->
    sys_resize img (s, s) LANCZOS = inl e ->
    step_raises img out l s w e
      (mkWorld f1 (stdout w)
         (calls w ++ [returned (makedirs_call (icon_dir out l) true);
                      raised (resize_call img (s, s) LANCZOS) e]))
| raises_save e f1 r f2 :
    sys_makedirs (icon_dir out l) true (fs w) = (None, f1) ->
    sys_resize img (s, s) LANCZOS = inr r ->
    sys_save r (icon_path out l) "PNG" f1 = (Some e, f2) ->
    step_raises img out l s w e
      (mkWorld f2 (stdout w)
         (calls w ++ [returned (makedirs_call (icon_dir out l) true);
                      returned (resize_call img (s, s) LANCZOS);
                      raised (save_call r (icon_path out l) "PNG") e])).

(** The world after the iteration for [(l, s)] completed. *)
Inductive step_returns (img : Image) (out l : string) (s : Z) (w : World)
  : World -> Prop :=
| returns_all f1 r f2 :
    sys_makedirs (icon_dir out l) true (fs w) = (None, f1) ->
    sys_resize img (s, s) LANCZOS = inr r ->
    sys_save r (icon_path out l) "PNG" f1 = (None, f2) ->
    step_returns img out l s w
      (mkWorld f2 (stdout w ++ [generated_line out (l, s)])
         (calls w ++ map returned (entry_calls img out (l, s)))).

(** The loop over a table: every iteration completes, or one raises and
    the loop stops there. *)
Inductive loop_run (img : Image) (out : string)
  : list (string * Z) -> World -> exc + unit -> World -> Prop :=
| loop_done w : loop_run img out [] w (inr tt) w
| loop_next l s es w w1 r w' :
    step_returns img out l s w w1 ->
    loop_run img out es w1 r w' ->
    loop_run img out ((l, s) :: es) w r w'
| loop_stop l s es w e w' :
    step_raises img out l s w e w' ->
    loop_run img out ((l, s) :: es) w (inl e) w'.

(** The normalisation to RGBA: the image it yields and the calls it makes. *)
Inductive normalized (img : Image) : Image -> list event -> Prop :=
| norm_keep :
    mode img = "RGBA" -> normalized img img []
| norm_convert img' :
    mode img <> "RGBA" ->
    sys_convert img "RGBA" = inr img' ->
    normalized img img' [returned (convert_call img "RGBA")].

(** The world a run of [generate_android_icons] leaves, by the place
    where it stopped. *)
Inductive gen_run (src out : string) (w : World) : World -> Prop :=
| gen_open_raises e :
    sys_open src (fs w) = inl e ->
    gen_run src out w
      (mkWorld (fs w) (stdout w ++ [error_line e; hint_line])
         (calls w ++ [raised (open_call src) e]))
| gen_convert_raises img e :
    sys_open src (fs w) = inr img ->
    mode img <> "RGBA" ->
    sys_convert img "RGBA" = inl e ->
    gen_run src out w
      (mkWorld (fs w)
         (stdout w ++ [loaded_line src; error_line e; hint_line])
         (calls w ++ [returned (open_call src);
                      raised (convert_call img "RGBA") e]))
| gen_loop_raises img nimg evs e w1 :
    sys_open src (fs w) = inr img ->
    normalized img nimg evs ->
    loop_run nimg out sizes
      (mkWorld (fs w) (stdout w ++ [loaded_line src])
         (calls w ++ returned (open_call src) :: evs)) (inl e) w1 ->
    gen_run src out w
      (mkWorld (fs w1) (stdout w1 ++ [error_line e; hint_line]) (calls w1))
| gen_completes img nimg evs w1 :
    sys_open src (fs w) = inr img ->
    normalized img nimg evs ->
    loop_run nimg out sizes
      (mkWorld (fs w) (stdout w ++ [loaded_line src])
         (calls w ++ returned (open_call src) :: evs)) (inr tt) w1 ->
    gen_run src out w
      (mkWorld (fs w1) (stdout w1 ++ [success_line]) (calls w1)).

(** The same for a fresh process, with output and history spelled out. *)
Inductive run_shape (src out : string) (f : FS) : World -> Prop :=
| shape_open_raised e :
    sys_open src f = inl e ->
    run_shape src out f
      (mkWorld f [error_line e; hint_line] [raised (open_call src) e])
| shape_convert_raised img e :
    sys_open src f = inr img ->
    mode img <> "RGBA" ->
    sys_convert img "RGBA" = inl e ->
    run_shape src out f
      (mkWorld f [loaded_line src; error_line e; hint_line]
         [returned (open_call src); raised (convert_call img "RGBA") e])
| shape_step_raised img nimg evs pre l s post done c rest e w0 w1 :
    sys_open src f = inr img ->
    normalized img nimg evs ->
    sizes = (pre ++ (l, s) :: post)%list ->
    entry_calls nimg out (l, s) = (done ++ c :: rest)%list ->
    loop_run nimg out pre
      (mkWorld f [loaded_line src] (returned (open_call src) :: evs))
      (inr tt) w0 ->
    step_raises nimg out l s w0 e w1 ->
    calls w1 = (calls w0 ++ map returned done ++ [raised c e])%list ->
    run_shape src out f
      (mkWorld (fs w1)
         (loaded_line src :: map (generated_line out) pre
            ++ [error_line e; hint_line])
         (returned (open_call src) :: evs
            ++ map returned (plan nimg out pre ++ done) ++ [raised c e]))
| shape_completed img nimg evs w1 :
    sys_open src f = inr img ->
    normalized img nimg evs ->
    loop_run nimg out sizes
      (mkWorld f [loaded_line src] (returned (open_call src) :: evs))
      (inr tt) w1 ->
    run_shape src out f
      (mkWorld (fs w1)
         (loaded_line src :: map (generated_line out) sizes
            ++ [success_line])
         (returned (open_call src) :: evs
            ++ map returned (plan nimg out sizes))).

End Generator.

(** ** Two statements of the specification, as they are worded *)

(** [needle in hay], for Python strings. *)
Fixpoint mentions (needle hay : string) : bool :=
  (String.prefix needle hay
   || match hay with
      | EmptyString => false
      | String _ hay' => mentions needle hay'
      end)%bool.

(** Pillow's modes that carry an alpha band. *)
Definition has_alpha (m : string) : bool :=
  existsb (String.eqb m) ["RGBA"; "LA"; "PA"; "RGBa"; "La"].

Section Wording.

Context {P : Platform}.

(** "The error identifies both the entry's label and the underlying
    cause": some error line of the output names the label and the text of
    the exception. *)
Definition error_identifies_entry (w : World) (label : string) (e : exc) : bool :=
  existsb (fun line =>
             String.prefix "❌ Error: " line && mentions label line
             && mentions (exc_str e) line)%bool
          (stdout w).

(** "When directory creation or file write fails for a table entry, the
    resulting error identifies both the entry's label and the underlying
    cause." *)
Definition write_error_identifies_entry (src out : string) (f : FS) : Prop :=
  forall en c e,
    In en sizes ->
    In (raised c e) (calls (run src out f)) ->
    touches out en c -> writes c = true ->
    error_identifies_entry (run src out f) (fst en) e = true.

(** "The decoded image is normalized exactly when its format lacks an alpha
    channel." *)
Definition converts_exactly_when_alpha_missing
    (src out : string) (f : FS) : Prop :=
  forall img, sys_open src f = inr img ->
    ((exists m r, In (convert_call img m, r) (calls (run src out f)))
     <-> has_alpha (mode img) = false).

End Wording.

(** ** An executable platform *)

(** A file system in memory and a stand-in for Pillow.  A path holds a
    directory, an image file or other data; [faults] lists the paths at
    which creating or writing fails, with the exception raised there
    (permission denied, disk full).  The codec is a stand-in: an image file
    holds the decoded image, [resize] keeps the raster and sets the size,
    [convert] sets the mode. *)
Module Sim.

Inductive node :=
| Dir
| Picture (img : Image) (fmt : string)
| Data (content : string).

Record SimFS := mkSimFS {
  nodes : list (string * node);
  faults : list (string * exc)
}.

Fixpoint lookup {A} (p : string) (l : list (string * A)) : option A :=
  match l with
  | [] => None
  | (q, a) :: l' => if String.eqb p q then Some a else lookup p l'
  end.

Definition sim_encode (img : Image) (fmt : string) : string :=
  fmt ++ ":" ++ mode img ++ ":" ++ str_int (fst (size img)) ++ "x"
      ++ str_int (snd (size img)) ++ ":"
      ++ String.concat "," (map str_int (pixels img)).

Definition sim_isdir (p : string) (f : SimFS) : bool :=
  match lookup p (nodes f) with Some Dir => true | _ => false end.

Definition sim_read_file (p : string) (f : SimFS) : option string :=
  match lookup p (nodes f) with
  | Some (Picture img fmt) => Some (sim_encode img fmt)
  | Some (Data d) => Some d
  | _ => None
  end.

Definition sim_exists (p : string) (f : SimFS) : bool :=
  match lookup p (nodes f) with Some _ => true | None => false end.

Definition sim_open (p : string) (f : SimFS) : exc + Image :=
  match lookup p (nodes f) with
  | Some (Picture img _) => inr img
  | Some (Data _) =>
      inl (Exception "UnidentifiedImageError"
             ("cannot identify image file '" ++ p ++ "'"))
  | Some Dir =>
      inl (Exception "IsADirectoryError"
             ("[Errno 21] Is a directory: '" ++ p ++ "'"))
  | None =>
      inl (Exception "FileNotFoundError"
             ("[Errno 2] No such file or directory: '" ++ p ++ "'"))
  end.

Definition sim_convert (img : Image) (m : string) : exc + Image :=
  inr (mkImage m (size img) (pixels img)).

Definition sim_makedirs (p : string) (exist_ok : bool) (f : SimFS)
  : option exc * SimFS :=
  match lookup p (faults f) with
  | Some e => (Some e, f)
  | None =>
      match lookup p (nodes f) with
      | None => (None, mkSimFS ((p, Dir) :: nodes f) (faults f))
      | Some Dir =>
          if exist_ok then (None, f)
          else (Some (Exception "FileExistsError"
                        ("[Errno 17] File exists: '" ++ p ++ "'")), f)
      | Some _ =>
          (Some (Exception "FileExistsError"
                   ("[Errno 17] File exists: '" ++ p ++ "'")), f)
      end
  end.

Definition sim_resize (img : Image) (sz : Z * Z) (r : Resampling)
  : exc + Image :=
  if ((fst sz <=? 0) || (snd sz <=? 0))%bool
  then inl (Exception "ValueError" "height and width must be > 0")
  else inr (mkImage (mode img) sz (pixels img)).

Definition sim_save (img : Image) (p fmt : string) (f : SimFS)
  : option exc * SimFS :=
  match lookup p (faults f) with
  | Some e => (Some e, f)
  | None =>
      match lookup p (nodes f) with
      | Some Dir =>
          (Some (Exception "IsADirectoryError"
                   ("[Errno 21] Is a directory: '" ++ p ++ "'")), f)
      | _ => (None, mkSimFS ((p, Picture img fmt) :: nodes f) (faults f))
      end
  end.

#[global] Instance SimPlatform : Platform := {|
  FS := SimFS;
  isdir := sim_isdir;
  read_file := sim_read_file;
  encode := sim_encode;
  sys_path_exists := sim_exists;
  sys_open := sim_open;
  sys_convert := sim_convert;
  sys_makedirs := sim_makedirs;
  sys_resize := sim_resize;
  sys_save := sim_save
|}.

(** *** Test fixtures *)

Definition logo (m : string) : Image := mkImage m (512, 512) [200; 30; 30; 255].

(** The logo is in place, as an opaque RGB image. *)
Definition fs_logo : SimFS :=
  mkSimFS [(source_image, Picture (logo "RGB") "JPEG")] [].

(** The logo is greyscale with alpha. *)
Definition fs_logo_LA : SimFS :=
  mkSimFS [(source_image, Picture (logo "LA") "PNG")] [].

(** The logo is already RGBA and an icon from an earlier run is there. *)
Definition fs_logo_RGBA : SimFS :=
  mkSimFS [(source_image, Picture (logo "RGBA") "PNG");
           ("android/app/src/main/res/mipmap-mdpi/ic_launcher.png",
            Data "stale");
           ("android/app/src/main/res/mipmap-mdpi", Dir)] [].

(** No logo. *)
Definition fs_empty : SimFS := mkSimFS [] [].

(** The logo path holds a text file. *)
Definition fs_text : SimFS :=
  mkSimFS [(source_image, Data "not an image")] [].

Definition not_an_image : exc :=
  Exception "UnidentifiedImageError"
    "cannot identify image file 'assets/images/app_logo.png'".

(** The first three icons, as the stand-in codec resizes the logo. *)
Definition icon (n : Z) : Image := mkImage "RGBA" (n, n) [200; 30; 30; 255].

Definition no_space : exc :=
  Exception "OSError" "[Errno 28] No space left on device".

Definition denied (p : string) : exc :=
  Exception "PermissionError" ("[Errno 13] Permission denied: '" ++ p ++ "'").

(** The disk fills up while the first icon is written. *)
Definition fs_full : SimFS :=
  mkSimFS [(source_image, Picture (logo "RGB") "JPEG")]
          [("android/app/src/main/res/mipmap-mdpi/ic_launcher.png", no_space)].

(** The disk fills up while the third icon is written. *)
Definition fs_full_third : SimFS :=
  mkSimFS [(source_image, Picture (logo "RGB") "JPEG")]
          [("android/app/src/main/res/mipmap-xhdpi/ic_launcher.png", no_space)].

(** The third directory cannot be created. *)
Definition fs_denied_third : SimFS :=
  mkSimFS [(source_image, Picture (logo "RGB") "JPEG")]
          [("android/app/src/main/res/mipmap-xhdpi",
            denied "android/app/src/main/res/mipmap-xhdpi")].

End Sim.

(** ** The order of the calls *)

Section Ordering.

Context {P : Platform}.

(** In the history [h], a resize or a save for a table entry comes after
    an [os.makedirs] of the entry's directory that returned. *)
Definition dir_first (out : string) (h : list event) : Prop :=
  forall h1 c r h2 en,
    h = (h1 ++ (c, r) :: h2)%list ->
    In en sizes -> touches out en c -> resize_or_save c = true ->
    In (returned (makedirs_call (icon_dir out (fst en)) true)) h1.

End Ordering.

(** A platform whose [convert] fails: Pillow decodes lazily, and the pixel
    data of the logo is truncated.  The rest is the executable platform. *)
Definition truncated : exc := Exception "OSError" "image file is truncated".

Definition LazyPlatform : Platform := {|
  FS := Sim.SimFS;
  isdir := Sim.sim_isdir;
  read_file := Sim.sim_read_file;
  encode := Sim.sim_encode;
  sys_path_exists := Sim.sim_exists;
  sys_open := Sim.sim_open;
  sys_convert := fun _ _ => inl truncated;
  sys_makedirs := Sim.sim_makedirs;
  sys_resize := Sim.sim_resize;
  sys_save := Sim.sim_save
|}.



(** ** A source that cannot be decoded *)

Section Undecodable.

Context {P : Platform}.



End Undecodable.

(** ** The script on a standard output that may refuse a line *)

(** [print] encodes the line for [sys.stdout]; a line the encoding of the
    terminal cannot express raises [UnicodeEncodeError], and a closed pipe
    raises [OSError].  [accepts line] is what writing [line] does: nothing,
    or the exception it raises.  The script below is the script above with
    this [print]. *)
Module Console.

Section Script.

Context {P : Platform}.
Variable accepts : string -> option exc.

Notation "x <- m ;; k" := (bind m (fun x => k))
  (at level 61, m at next level, right associativity).
Notation "m ;; k" := (bind m (fun _ => k))
  (at level 61, right associativity).

(** [print(line)]. *)
Definition print (line : string) : M unit :=
  fun w => match accepts line with
           | Some e => (inl e, w)
           | None => (inr tt, mkWorld (fs w) (stdout w ++ [line]) (calls w))
           end.

(** The body of the [for folder, size in sizes.items()] loop. *)
Definition icon_step (source_img : Image) (output_dir : string)
    (entry : string * Z) : M unit :=
  let '(folder, size) := entry in
  let folder_path := os_path_join output_dir folder in
  os_makedirs folder_path true ;;
  resized_img <- resize source_img (size, size) LANCZOS ;;
  let output_path := os_path_join folder_path "ic_launcher.png" in
  save resized_img output_path "PNG" ;;
  print ("Generated: " ++ output_path ++ " (" ++ str_int size ++ "x"
         ++ str_int size ++ ")").

(** The [try] block. *)
Definition try_block (source_path output_dir : string) : M unit :=
  source_img <- Image_open source_path ;;
  print ("Loaded source image: " ++ source_path) ;;
  source_img <- (if negb (String.eqb (mode source_img) "RGBA")
                 then convert source_img "RGBA"
                 else ret source_img) ;;
  for_in sizes (icon_step source_img output_dir) ;;
  print "✅ Android icons generated successfully!".

(** The [except Exception as e] block. *)
Definition except_block (e : exc) : M unit :=
  print ("❌ Error: " ++ exc_str e) ;;
  print "Make sure you have Pillow installed: pip install Pillow".

(** [generate_android_icons(source_path, output_dir)]. *)
Definition generate_android_icons (source_path output_dir : string) : M unit :=
  try_except (try_block source_path output_dir) except_block.

(** The [if __name__ == "__main__"] block. *)
Definition main : M unit :=
  found <- os_path_exists source_image ;;
  if found then generate_android_icons source_image android_res_dir
  else
    print ("❌ Source image not found: " ++ source_image) ;;
    print "Please save your logo image as assets/images/app_logo.png".

(** The file run as a script: the imports at its top, then the
    [__main__] block.  [imported] is what [from PIL import Image] raises
    when Pillow is not installed. *)
Variable imported : option exc.

Definition script : M unit :=
  fun w => match imported with
           | Some e => (inl e, w)
           | None => main w
           end.

(** "[generate_android_icons] never propagates an exception to its
    caller: it returns [None] on every path, and the exit status of the
    process is 0 on all paths." *)
Definition never_propagates : Prop :=
  (forall src out w, fst (generate_android_icons src out w) = inr tt)
  /\ (forall w, exit_status (fst (script w)) = 0).

End Script.

(** A standard output in a legacy code page (cp1252, the default of a
    Windows console): it has no character for the two emoji the script
    prints. *)
Definition cannot_encode (ch : string) : exc :=
  Exception "UnicodeEncodeError"
    ("'charmap' codec can't encode character '" ++ ch ++ "'").

Definition cp1252 (line : string) : option exc :=
  if mentions "❌" line then Some (cannot_encode "\u274c")
  else if mentions "✅" line then Some (cannot_encode "\u2705")
  else None.

(** A standard output that takes every line. *)
Definition utf8 (line : string) : option exc := None.

End Console.

(** * Proofs *)

(** ** Strings and paths *)

Lemma append_cancel_l (a x y : string) : a ++ x = a ++ y -> x = y.
Proof.
  induction a as [|c a IH]; simpl; intros H.
  - exact H.
  - injection H as H. auto.
Qed.

Lemma length_append (x y : string) :
  String.length (x ++ y) = (String.length x + String.length y)%nat.
Proof. induction x as [|c x IH]; simpl; [reflexivity | now rewrite IH]. Qed.

Lemma append_cancel_r (t x y : string) : x ++ t = y ++ t -> x = y.
Proof.
  revert y. induction x as [|c x IH]; intros [|d y] H; simpl in H.
  - reflexivity.
  - apply (f_equal String.length) in H. simpl in H.
    rewrite length_append in H. lia.
  - apply (f_equal String.length) in H. simpl in H.
    rewrite length_append in H. lia.
  - injection H as Hc H. subst d. f_equal. auto.
Qed.

Lemma append_assoc (x y z : string) : (x ++ y) ++ z = x ++ y ++ z.
Proof. induction x as [|c x IH]; simpl; [reflexivity | now rewrite IH]. Qed.

Lemma endswith_sep_append (a l : string) :
  l <> "" -> endswith_sep (a ++ l) = endswith_sep l.
Proof.
  intros Hl. induction a as [|c a IH]; simpl.
  - reflexivity.
  - destruct (a ++ l) as [|d t] eqn:E.
    + destruct a; simpl in E; [contradiction | discriminate].
    + exact IH.
Qed.

Lemma label_ok_parts (l : string) :
  label_ok l = true ->
  String.prefix "/" l = false /\ l <> "" /\ endswith_sep l = false.
Proof.
  unfold label_ok. intros H.
  apply andb_prop in H as [H H3]. apply andb_prop in H as [H1 H2].
  apply negb_true_iff in H1, H2, H3. repeat split; auto.
  intros ->. discriminate.
Qed.

Lemma icon_dir_eq (out l : string) :
  label_ok l = true -> icon_dir out l = out ++ sep_after out ++ l.
Proof.
  intros H. apply label_ok_parts in H as (H & _ & _).
  unfold icon_dir, os_path_join, sep_after. rewrite H.
  destruct (String.eqb out "" || endswith_sep out)%bool; reflexivity.
Qed.

Lemma icon_path_eq (out l : string) :
  label_ok l = true -> icon_path out l = icon_dir out l ++ "/ic_launcher.png".
Proof.
  intros H. unfold icon_path. rewrite (icon_dir_eq out l H).
  apply label_ok_parts in H as (_ & Hne & Hend).
  unfold os_path_join. simpl String.prefix.
  rewrite <- append_assoc, (endswith_sep_append _ l Hne), Hend.
  destruct ((out ++ sep_after out) ++ l) as [|c t] eqn:E.
  - destruct (out ++ sep_after out); simpl in E; [contradiction | discriminate].
  - reflexivity.
Qed.

Lemma icon_dir_inj (out l l' : string) :
  label_ok l = true -> label_ok l' = true ->
  icon_dir out l = icon_dir out l' -> l = l'.
Proof.
  intros H H' E. rewrite (icon_dir_eq _ _ H), (icon_dir_eq _ _ H') in E.
  apply append_cancel_l in E. apply append_cancel_l in E. exact E.
Qed.

Lemma icon_path_inj (out l l' : string) :
  label_ok l = true -> label_ok l' = true ->
  icon_path out l = icon_path out l' -> l = l'.
Proof.
  intros H H' E. rewrite (icon_path_eq _ _ H), (icon_path_eq _ _ H') in E.
  apply append_cancel_r in E. eauto using icon_dir_inj.
Qed.

Lemma sizes_ok : table_ok sizes.
Proof.
  unfold table_ok, sizes; simpl. repeat split.
  - repeat constructor; simpl; intuition discriminate.
  - repeat constructor; simpl; intuition discriminate.
  - repeat constructor.
Qed.

(** ** The script runs as the big-step relations say *)

Section Runs.

Context {P : Platform}.

Lemma icon_step_run (img : Image) (out l : string) (s : Z) (w : World) :
  (exists e w', icon_step img out (l, s) w = (inl e, w')
                /\ step_raises img out l s w e w')
  \/ (exists w', icon_step img out (l, s) w = (inr tt, w')
                 /\ step_returns img out l s w w').
Proof.
  unfold icon_step, bind, os_makedirs, resize, save, writing, reading, print,
    record.
  fold (icon_dir out l). fold (icon_path out l).
  destruct (sys_makedirs (icon_dir out l) true (fs w)) as [[e|] f1] eqn:Hm;
    simpl.
  { left. eexists _, _. split; [reflexivity|]. now constructor. }
  destruct (sys_resize img (s, s) LANCZOS) as [e|r] eqn:Hr; simpl.
  { left. eexists _, _. split; [reflexivity|].
    rewrite <- app_assoc. simpl. now constructor. }
  destruct (sys_save r (icon_path out l) "PNG" f1) as [[e|] f2] eqn:Hs; simpl.
  { left. eexists _, _. split; [reflexivity|].
    rewrite <- !app_assoc. simpl. econstructor; eauto. }
  right. eexists. split; [reflexivity|].
  rewrite <- !app_assoc. simpl.
  pose proof (returns_all img out l s w f1 r f2 Hm Hr Hs) as H.
  unfold entry_calls, resized in H. simpl in H. rewrite Hr in H. exact H.
Qed.

Lemma for_in_run (img : Image) (out : string) (es : list (string * Z)) :
  forall w, exists r w',
    for_in es (icon_step img out) w = (r, w') /\ loop_run img out es w r w'.
Proof.
  induction es as [|[l s] es IH]; intros w; cbn [for_in].
  - exists (inr tt), w. split; [reflexivity | constructor].
  - unfold bind.
    destruct (icon_step_run img out l s w) as [(e & w1 & E & H)|(w1 & E & H)];
      rewrite E.
    + exists (inl e), w1. split; [reflexivity | now constructor].
    + destruct (IH w1) as (r & w' & E' & H').
      exists r, w'. split; [exact E' | econstructor; eauto].
Qed.

Lemma generate_run (src out : string) (w : World) :
  exists w', generate_android_icons src out w = (inr tt, w')
             /\ gen_run src out w w'.
Proof.
  unfold generate_android_icons, try_except, try_block, bind, Image_open,
    convert, reading, except_block, print, record, ret.
  destruct (sys_open src (fs w)) as [e|img] eqn:Ho; cbn [fs stdout calls].
  { eexists. split; [reflexivity|]. cbn [fs stdout calls].
    rewrite <- app_assoc. now constructor. }
  destruct (String.eqb (mode img) "RGBA") eqn:Hm; cbn [negb fs stdout calls].
  - apply String.eqb_eq in Hm.
    destruct (for_in_run img out sizes
                (mkWorld (fs w) (stdout w ++ [loaded_line src])
                   (calls w ++ [returned (open_call src)])))
      as ([e|[]] & w1 & E & H); unfold loaded_line in E; rewrite E.
    + eexists. split; [reflexivity|]. cbn [fs stdout calls].
      rewrite <- app_assoc.
      eapply gen_loop_raises; eauto using norm_keep.
    + eexists. split; [reflexivity|].
      eapply gen_completes; eauto using norm_keep.
  - apply String.eqb_neq in Hm.
    destruct (sys_convert img "RGBA") as [e|nimg] eqn:Hc;
      cbn [fs stdout calls].
    { eexists. split; [reflexivity|]. cbn [fs stdout calls].
      rewrite <- !app_assoc. now constructor. }
    destruct (for_in_run nimg out sizes
                (mkWorld (fs w) (stdout w ++ [loaded_line src])
                   ((calls w ++ [returned (open_call src)])
                      ++ [returned (convert_call img "RGBA")])))
      as ([e|[]] & w1 & E & H); unfold loaded_line in E; rewrite E;
      rewrite <- app_assoc in H; cbn [app] in H.
    + eexists. split; [reflexivity|]. cbn [fs stdout calls].
      rewrite <- app_assoc.
      eapply gen_loop_raises; eauto using norm_convert.
    + eexists. split; [reflexivity|].
      eapply gen_completes; eauto using norm_convert.
Qed.

Lemma run_gen_run (src out : string) (f : FS) :
  gen_run src out (boot f) (run src out f).
Proof.
  unfold run. destruct (generate_run src out (boot f)) as (w' & E & H).
  now rewrite E.
Qed.

End Runs.

(** ** The history of the loop *)

Open Scope list_scope.

Section History.

Context {P : Platform}.
Variables (img : Image) (out : string).

Lemma loop_ok_history es w w' :
  loop_run img out es w (inr tt) w' ->
  calls w' = calls w ++ map returned (plan img out es)
  /\ stdout w' = stdout w ++ map (generated_line out) es.
Proof.
  intros H. remember (inr tt) as r eqn:Er.
  induction H as [w | l s es w w1 r w' Hs Hl IH | l s es w e w' Hs].
  - simpl. now rewrite !app_nil_r.
  - destruct (IH Er) as [Hc Ho]. inversion Hs; subst.
    cbn [calls stdout] in Hc, Ho. rewrite Hc, Ho.
    unfold plan. cbn [flat_map map]. rewrite map_app, <- !app_assoc.
    split; reflexivity.
  - discriminate.
Qed.

Lemma loop_raise_split es w e w' :
  loop_run img out es w (inl e) w' ->
  exists pre l s post w1,
    es = pre ++ (l, s) :: post
    /\ loop_run img out pre w (inr tt) w1
    /\ step_raises img out l s w1 e w'.
Proof.
  intros H. remember (inl e) as r eqn:Er.
  induction H as [w | l s es w w1 r w' Hs Hl IH | l s es w e0 w' Hs].
  - discriminate.
  - destruct (IH Er) as (pre & l0 & s0 & post & w2 & -> & Hp & Hr).
    exists ((l, s) :: pre), l0, s0, post, w2. repeat split; auto.
    econstructor; eauto.
  - injection Er as ->.
    exists [], l, s, es, w. repeat split; auto. constructor.
Qed.

(** The iteration that raises leaves a prefix of its three calls in the
    history, the last of them raising. *)
Lemma step_raises_history l s w e w' :
  step_raises img out l s w e w' ->
  stdout w' = stdout w
  /\ exists done c rest,
       entry_calls img out (l, s) = done ++ c :: rest
       /\ calls w' = calls w ++ map returned done ++ [raised c e].
Proof.
  intros H. inversion H; subst; cbn [stdout calls]; split; auto.
  - exists [], (makedirs_call (icon_dir out l) true). eexists.
    split; reflexivity.
  - exists [makedirs_call (icon_dir out l) true],
      (resize_call img (s, s) LANCZOS). eexists.
    split; reflexivity.
  - exists [makedirs_call (icon_dir out l) true;
            resize_call img (s, s) LANCZOS],
      (save_call r (icon_path out l) "PNG"), [].
    split; [|reflexivity].
    unfold entry_calls, resized. cbn [fst snd]. now rewrite H1.
Qed.

End History.

(** ** The file system after the loop *)

Section Files.

Context {P : Platform} {L : PlatformLaws P}.
Variables (img : Image) (out : string).

Lemma step_returns_fs l s w w1 :
  step_returns img out l s w w1 ->
  sys_resize img (s, s) LANCZOS = inr (resized img s)
  /\ read_file (icon_path out l) (fs w1) = Some (encode (resized img s) "PNG")
  /\ isdir (icon_dir out l) (fs w1) = true.
Proof.
  intros H. inversion H as [f1 r f2 Hm Hr Hs]; subst. cbn [fs].
  assert (E : resized img s = r) by (unfold resized; now rewrite Hr).
  rewrite E. repeat split; auto.
  - eapply save_file; eauto.
  - eapply save_dirs; eauto. eapply makedirs_isdir; eauto.
Qed.

Lemma step_returns_frame l s w w1 :
  step_returns img out l s w w1 ->
  (forall q, q <> icon_path out l -> read_file q (fs w1) = read_file q (fs w))
  /\ (forall q, isdir q (fs w) = true -> isdir q (fs w1) = true).
Proof.
  intros H. inversion H as [f1 r f2 Hm Hr Hs]; subst. cbn [fs]. split.
  - intros q Hq. rewrite (save_files _ _ _ _ _ _ q Hs Hq).
    eapply makedirs_files; eauto.
  - intros q Hq. eapply save_dirs; eauto. eapply makedirs_dirs; eauto.
Qed.

Lemma step_raises_frame l s w e w' :
  step_raises img out l s w e w' ->
  (forall q, q <> icon_path out l -> read_file q (fs w') = read_file q (fs w))
  /\ (forall q, isdir q (fs w) = true -> isdir q (fs w') = true).
Proof.
  intros H.
  inversion H as [e0 f1 Hm | e0 f1 Hm Hr | e0 f1 r f2 Hm Hr Hs]; subst;
    cbn [fs]; split; intros q Hq.
  - eapply makedirs_files; eauto.
  - eapply makedirs_dirs; eauto.
  - eapply makedirs_files; eauto.
  - eapply makedirs_dirs; eauto.
  - rewrite (save_files _ _ _ _ _ _ q Hs Hq). eapply makedirs_files; eauto.
  - eapply save_dirs; eauto. eapply makedirs_dirs; eauto.
Qed.

(** When the call that raised is the resize or the save, the directory of
    the entry was made before and is in place. *)
Lemma step_raises_after_makedirs l s w e w' done c :
  step_raises img out l s w e w' ->
  calls w' = calls w ++ map returned done ++ [raised c e] ->
  resize_or_save c = true ->
  isdir (icon_dir out l) (fs w') = true.
Proof.
  intros H Hc Hrs.
  inversion H as [e0 f1 Hm | e0 f1 Hm Hr | e0 f1 r f2 Hm Hr Hs]; subst;
    cbn [fs calls] in *.
  - apply app_inv_head in Hc. destruct done as [|x done]; cbn [map app] in Hc.
    + injection Hc as <-. discriminate.
    + discriminate.
  - eapply makedirs_isdir; eauto.
  - eapply save_dirs; eauto. eapply makedirs_isdir; eauto.
Qed.

Lemma loop_frame es w r w' :
  loop_run img out es w r w' ->
  (forall q, (forall en, In en es -> q <> icon_path out (fst en)) ->
             read_file q (fs w') = read_file q (fs w))
  /\ (forall q, isdir q (fs w) = true -> isdir q (fs w') = true).
Proof.
  induction 1 as [w | l s es w w1 r w' Hs Hl IH | l s es w e w' Hs].
  - split; auto.
  - destruct IH as [IHf IHd].
    destruct (step_returns_frame _ _ _ _ Hs) as [Hf Hd]. split.
    + intros q Hq. rewrite IHf by (intros en Hen; apply Hq; now right).
      apply Hf. apply (Hq (l, s)). now left.
    + auto.
  - destruct (step_raises_frame _ _ _ _ _ Hs) as [Hf Hd]. split.
    + intros q Hq. apply Hf. apply (Hq (l, s)). now left.
    + auto.
Qed.

(** After a loop that completed, every entry's icon is on disk, as resized
    from [img], in the entry's directory. *)
Lemma loop_ok_files es w w' :
  loop_run img out es w (inr tt) w' ->
  NoDup (map fst es) ->
  Forall (fun en => label_ok (fst en) = true) es ->
  forall l s, In (l, s) es ->
    sys_resize img (s, s) LANCZOS = inr (resized img s)
    /\ read_file (icon_path out l) (fs w') = Some (encode (resized img s) "PNG")
    /\ isdir (icon_dir out l) (fs w') = true.
Proof.
  intros H. remember (inr tt) as r eqn:Er.
  induction H as [w | l0 s0 es w w1 r w' Hs Hl IH | l0 s0 es w e w' Hs];
    intros Hnd Hok l s Hin.
  - destruct Hin.
  - cbn [map fst] in Hnd. inversion Hnd as [|? ? Hnotin Hnd']; subst.
    inversion Hok as [|? ? Hl0 Hok']; subst. cbn [fst] in Hl0.
    destruct Hin as [Hin|Hin].
    + injection Hin as -> ->.
      destruct (step_returns_fs _ _ _ _ Hs) as (Hr & Hf & Hd).
      destruct (loop_frame _ _ _ _ Hl) as [Lf Ld].
      repeat split; auto.
      rewrite Lf; auto.
      intros [l1 s1] Hen E. cbn [fst] in E.
      apply icon_path_inj in E; auto.
      * subst l1. apply Hnotin. now apply (in_map fst) in Hen.
      * rewrite Forall_forall in Hok'. now apply (Hok' (l1, s1)).
    + now apply IH.
  - discriminate.
Qed.

End Files.

(** ** The shape of a run *)

Section Shape.

Context {P : Platform}.

Lemma run_has_shape (src out : string) (f : FS) :
  run_shape src out f (run src out f).
Proof.
  pose proof (run_gen_run src out f) as H.
  remember (run src out f) as w' eqn:E. clear E.
  destruct H as [e Ho | img e Ho Hm Hc | img nimg evs e w1 Ho Hn Hl
                | img nimg evs w1 Ho Hn Hl]; cbn [boot fs stdout calls app] in *.
  - now constructor.
  - now constructor.
  - destruct (loop_raise_split _ _ _ _ _ _ Hl)
      as (pre & l & s & post & w0 & Es & Hp & Hs).
    destruct (loop_ok_history _ _ _ _ _ Hp) as [Hc0 Ho0].
    destruct (step_raises_history _ _ _ _ _ _ _ Hs)
      as (Ho1 & done & c & rest & Ec & Hc1).
    cbn [stdout calls] in Hc0, Ho0.
    rewrite Ho1, Ho0, Hc1, Hc0.
    pose proof (shape_step_raised src out f _ _ _ _ _ _ _ _ _ _ _ _ _
                  Ho Hn Es Ec Hp Hs Hc1) as S.
    rewrite map_app, <- !app_assoc in S. rewrite <- !app_assoc.
    exact S.
  - destruct (loop_ok_history _ _ _ _ _ Hl) as [Hc0 Ho0].
    cbn [stdout calls] in Hc0, Ho0. rewrite Hc0, Ho0.
    rewrite <- !app_assoc. cbn [app].
    eapply shape_completed; eauto.
Qed.

End Shape.

(** ** Tables without repeated keys *)

Section Keys.

Context {A B : Type} (key : A -> B).

Lemma split_unique (pre pre' post post' : list A) (x x' : A) :
  NoDup (map key (pre ++ x :: post)) ->
  pre ++ x :: post = pre' ++ x' :: post' ->
  key x = key x' ->
  pre = pre' /\ x = x' /\ post = post'.
Proof.
  revert pre'. induction pre as [|a pre IH]; intros [|a' pre'] Hnd E Hk;
    cbn [app map] in *.
  - injection E as -> ->. auto.
  - injection E as -> ->. inversion Hnd as [|? ? Hnotin _]; subst.
    exfalso. apply Hnotin. rewrite Hk. apply in_map, in_elt.
  - injection E as -> <-. inversion Hnd as [|? ? Hnotin _]; subst.
    exfalso. apply Hnotin. rewrite <- Hk. apply in_map, in_elt.
  - injection E as -> E. inversion Hnd as [|? ? _ Hnd']; subst.
    destruct (IH pre' Hnd' E Hk) as (-> & -> & ->). auto.
Qed.

Lemma split_apart (pre post : list A) (x a b : A) :
  NoDup (map key (pre ++ x :: post)) ->
  In a (pre ++ [x]) -> In b post -> key a <> key b.
Proof.
  induction pre as [|y pre IH]; cbn [app map]; intros Hnd Ha Hb E;
    inversion Hnd as [|? ? Hnotin Hnd']; subst.
  - destruct Ha as [<-|[]]. apply Hnotin. rewrite E. now apply in_map.
  - destruct Ha as [<-|Ha].
    + apply Hnotin. rewrite E. apply in_map, in_or_app. right. now right.
    + now apply (IH Hnd' Ha Hb).
Qed.

Lemma split_before (pre post : list A) (x a : A) :
  NoDup (map key (pre ++ x :: post)) -> In a pre -> key a <> key x.
Proof.
  rewrite map_app. cbn [map]. intros Hnd Ha E.
  apply NoDup_remove_2 in Hnd. apply Hnd, in_or_app. left.
  rewrite <- E. now apply in_map.
Qed.

End Keys.

(** ** Calls and the entries they work on *)

Section ShapeFacts.

Context {P : Platform}.

Lemma touches_entry_calls (img : Image) (out : string) (en en' : string * Z)
    (c : call) :
  label_ok (fst en) = true -> label_ok (fst en') = true ->
  In c (entry_calls img out en) -> touches out en' c ->
  fst en = fst en' \/ snd en = snd en'.
Proof.
  intros Hl Hl' Hin Ht.
  destruct Hin as [<-|[<-|[<-|[]]]]; cbn [touches] in Ht.
  - left. eapply icon_dir_inj; eauto.
  - right. now injection Ht.
  - left. eapply icon_path_inj; eauto.
Qed.

Lemma in_plan (img : Image) (out : string) (es : list (string * Z)) (c : call) :
  In c (plan img out es) <->
  exists en, In en es /\ In c (entry_calls img out en).
Proof. unfold plan. apply in_flat_map. Qed.

Lemma returned_ok (l : list call) (ev : event) :
  In ev (map returned l) -> snd ev = None.
Proof. intros H. apply in_map_iff in H as (c & <- & _). reflexivity. Qed.

Lemma in_returned (l : list call) (c : call) (r : option exc) :
  In (c, r) (map returned l) -> In c l /\ r = None.
Proof.
  intros H. apply in_map_iff in H as (c' & E & H).
  injection E as -> <-. auto.
Qed.

Lemma sizes_label_ok (en : string * Z) : In en sizes -> label_ok (fst en) = true.
Proof.
  destruct sizes_ok as (_ & _ & H). rewrite Forall_forall in H. apply H.
Qed.

Lemma saved_paths_app (h h' : list event) :
  saved_paths (h ++ h') = saved_paths h ++ saved_paths h'.
Proof.
  induction h as [|[c r] h IH]; cbn [app saved_paths]; [reflexivity|].
  destruct c; try exact IH. destruct r; [exact IH|].
  cbn [app]. now rewrite IH.
Qed.

Lemma saved_paths_plan (img : Image) (out : string) (es : list (string * Z)) :
  saved_paths (map returned (plan img out es))
  = map (fun en => icon_path out (fst en)) es.
Proof.
  induction es as [|en es IH]; [reflexivity|].
  unfold plan in *. cbn [flat_map entry_calls app map saved_paths returned].
  now rewrite IH.
Qed.

Lemma normalized_events (img nimg : Image) (evs : list event) :
  normalized img nimg evs ->
  forall c r, In (c, r) evs ->
    c = convert_call img "RGBA" /\ r = None /\ mode img <> "RGBA".
Proof.
  intros H c r Hin. destruct H as [Hm | nimg Hm Hc].
  - destruct Hin.
  - destruct Hin as [E|[]]. injection E as <- <-. auto.
Qed.

Lemma normalized_fun (img nimg nimg' : Image) (evs evs' : list event) :
  normalized img nimg evs -> normalized img nimg' evs' ->
  nimg = nimg' /\ evs = evs'.
Proof.
  intros H H'. destruct H as [Hm | n Hm Hc]; destruct H' as [Hm' | n' Hm' Hc'];
    try contradiction; auto.
  rewrite Hc in Hc'. injection Hc' as ->. auto.
Qed.

Lemma succeeded_spec (w : World) :
  succeeded w = true <-> forall c e, ~ In (raised c e) (calls w).
Proof.
  unfold succeeded. rewrite forallb_forall. split.
  - intros H c e Hin. apply H in Hin. discriminate.
  - intros H [c [e|]] Hin; [|reflexivity]. exfalso. apply (H c e Hin).
Qed.

(** A run in which no call raised completed the loop. *)
Lemma succeeded_shape (src out : string) (f : FS) :
  succeeded (run src out f) = true ->
  exists img nimg evs w1,
    sys_open src f = inr img
    /\ normalized img nimg evs
    /\ loop_run nimg out sizes
         (mkWorld f [loaded_line src] (returned (open_call src) :: evs))
         (inr tt) w1
    /\ run src out f =
       mkWorld (fs w1)
         (loaded_line src :: map (generated_line out) sizes ++ [success_line])
         (returned (open_call src) :: evs ++ map returned (plan nimg out sizes)).
Proof.
  intros Hs. rewrite succeeded_spec in Hs.
  pose proof (run_has_shape src out f) as H.
  remember (run src out f) as w' eqn:E. clear E.
  destruct H as [e Ho | img e Ho Hm Hc
                | img nimg evs pre l s post done c rest e w0 w1 Ho Hn Es Ec Hp Hr Hk
                | img nimg evs w1 Ho Hn Hl]; cbn [calls] in Hs.
  - exfalso. apply (Hs (open_call src) e). now left.
  - exfalso. apply (Hs (convert_call img "RGBA") e). right. now left.
  - exfalso. apply (Hs c e). right. apply in_or_app. right.
    apply in_or_app. right. now left.
  - exists img, nimg, evs, w1. auto.
Qed.

(** A call of a table entry that raised: the loop completed the entries
    before it and stopped in this one. *)
Lemma raised_at_entry (src out : string) (f : FS) pre l s post c e :
  sizes = pre ++ (l, s) :: post ->
  In (raised c e) (calls (run src out f)) ->
  touches out (l, s) c ->
  exists img nimg evs done rest w0 w1,
    sys_open src f = inr img
    /\ normalized img nimg evs
    /\ entry_calls nimg out (l, s) = done ++ c :: rest
    /\ loop_run nimg out pre
         (mkWorld f [loaded_line src] (returned (open_call src) :: evs))
         (inr tt) w0
    /\ step_raises nimg out l s w0 e w1
    /\ calls w1 = calls w0 ++ map returned done ++ [raised c e]
    /\ run src out f =
       mkWorld (fs w1)
         (loaded_line src :: map (generated_line out) pre
            ++ [error_line e; hint_line])
         (returned (open_call src) :: evs
            ++ map returned (plan nimg out pre ++ done) ++ [raised c e]).
Proof.
  intros Es Hin Ht.
  pose proof (run_has_shape src out f) as H.
  remember (run src out f) as w' eqn:E. clear E.
  destruct H as [e0 Ho | img e0 Ho Hm Hc
                | img nimg evs pre0 l0 s0 post0 done c0 rest e0 w0 w1
                    Ho Hn Es0 Ec Hp Hr Hk
                | img nimg evs w1 Ho Hn Hl]; cbn [calls] in Hin.
  - destruct Hin as [E|[]]. injection E as <- <-. destruct Ht.
  - destruct Hin as [E|[E|[]]]; [discriminate|].
    injection E as <- <-. destruct Ht.
  - assert (c = c0 /\ e = e0) as [-> ->].
    { destruct Hin as [E|Hin]; [discriminate|].
      apply in_app_or in Hin as [Hin|Hin].
      { apply (normalized_events _ _ _ Hn) in Hin as (_ & E & _).
        discriminate. }
      apply in_app_or in Hin as [Hin|Hin].
      { apply returned_ok in Hin. discriminate. }
      destruct Hin as [E|[]]. now injection E as <- <-. }
    assert (Hc0 : In c0 (entry_calls nimg out (l0, s0))).
    { rewrite Ec. apply in_elt. }
    assert (Hl0 : label_ok l0 = true).
    { apply (sizes_label_ok (l0, s0)). rewrite Es0. apply in_elt. }
    assert (Hl : label_ok l = true).
    { apply (sizes_label_ok (l, s)). rewrite Es. apply in_elt. }
    destruct sizes_ok as (Hnd1 & Hnd2 & _).
    assert (pre0 = pre /\ (l0, s0) = (l, s) /\ post0 = post)
      as (-> & E & ->).
    { destruct (touches_entry_calls nimg out (l0, s0) (l, s) c0 Hl0 Hl Hc0 Ht)
        as [K|K].
      - rewrite Es0 in Hnd1. rewrite Es0 in Es.
        exact (split_unique fst _ _ _ _ _ _ Hnd1 Es K).
      - rewrite Es0 in Hnd2. rewrite Es0 in Es.
        exact (split_unique snd _ _ _ _ _ _ Hnd2 Es K). }
    injection E as -> ->.
    exists img, nimg, evs, done, rest, w0, w1. auto 10.
  - exfalso. destruct Hin as [E|Hin]; [discriminate|].
    apply in_app_or in Hin as [Hin|Hin].
    + apply (normalized_events _ _ _ Hn) in Hin as (_ & E & _). discriminate.
    + apply returned_ok in Hin. discriminate.
Qed.

Lemma entry_calls_done (img : Image) (out : string) (en : string * Z)
    (done rest : list call) (c : call) :
  entry_calls img out en = done ++ c :: rest ->
  (done = [] /\ c = makedirs_call (icon_dir out (fst en)) true)
  \/ (exists done', done = makedirs_call (icon_dir out (fst en)) true :: done'
                    /\ forall i p fmt, ~ In (save_call i p fmt) done').
Proof.
  unfold entry_calls. intros E.
  destruct done as [|a [|b [|d done]]]; cbn [app] in E.
  - left. now injection E as <- _.
  - right. injection E as <- _ _. exists []. split; auto.
  - right. injection E as <- <- _ _. eexists. split; [reflexivity|].
    intros i p fmt [H|[]]. discriminate.
  - exfalso. injection E as _ _ _ E.
    now apply app_cons_not_nil in E.
Qed.

(** The calls of a run that stopped in the entry [(l, s)] belong to the
    entries up to that one. *)
Lemma history_call_entry (src out : string) (img nimg : Image)
    (evs : list event) (pre : list (string * Z)) (l : string) (s : Z)
    (done rest : list call) (c c' : call) (e : exc) (r' : option exc) :
  normalized img nimg evs ->
  entry_calls nimg out (l, s) = done ++ c :: rest ->
  In (c', r') (returned (open_call src) :: evs
                 ++ map returned (plan nimg out pre ++ done) ++ [raised c e]) ->
  (forall en, ~ touches out en c')
  \/ (exists en1, In en1 (pre ++ [(l, s)]) /\ In c' (entry_calls nimg out en1)).
Proof.
  intros Hn Ec Hin.
  assert (Hcur : forall x, In x (done ++ c :: rest) ->
            exists en1, In en1 (pre ++ [(l, s)])
                        /\ In x (entry_calls nimg out en1)).
  { intros x Hx. exists (l, s). split; [apply in_elt | now rewrite Ec]. }
  destruct Hin as [E|Hin].
  { injection E as <- <-. left. intros en H. exact H. }
  apply in_app_or in Hin as [Hin|Hin].
  { apply (normalized_events _ _ _ Hn) in Hin as (-> & _ & _).
    left. intros en H. exact H. }
  right. apply in_app_or in Hin as [Hin|Hin].
  - apply in_returned in Hin as [Hin _].
    apply in_app_or in Hin as [Hin|Hin].
    + apply in_plan in Hin as (en1 & H1 & H2).
      exists en1. split; [apply in_or_app; now left | exact H2].
    + apply Hcur, in_or_app. now left.
  - destruct Hin as [E|[]]. injection E as <- <-. apply Hcur, in_elt.
Qed.

(** A call that raised is the last call of the run; the run then prints
    its error line, made of the text of the exception, and the hint. *)
Lemma raised_is_last (src out : string) (f : FS) (c : call) (e : exc) :
  In (raised c e) (calls (run src out f)) ->
  exists h before,
    calls (run src out f) = h ++ [raised c e]
    /\ stdout (run src out f) = before ++ [error_line e; hint_line]
    /\ Forall (fun line => String.prefix "❌ Error: " line = false) before.
Proof.
  intros Hin.
  pose proof (run_has_shape src out f) as H.
  remember (run src out f) as w' eqn:E. clear E.
  destruct H as [e0 Ho | img e0 Ho Hm Hc
                | img nimg evs pre l s post done c0 rest e0 w0 w1
                    Ho Hn Es Ec Hp Hr Hk
                | img nimg evs w1 Ho Hn Hl]; cbn [calls stdout] in *.
  - destruct Hin as [E|[]]. injection E as <- <-.
    exists [], []. repeat split. constructor.
  - destruct Hin as [E|[E|[]]]; [discriminate|]. injection E as <- <-.
    exists [returned (open_call src)], [loaded_line src].
    repeat split. repeat constructor.
  - assert (c = c0 /\ e = e0) as [-> ->].
    { destruct Hin as [E|Hin]; [discriminate|].
      apply in_app_or in Hin as [Hin|Hin].
      { destruct (normalized_events _ _ _ Hn _ _ Hin) as (_ & E & _).
        discriminate. }
      apply in_app_or in Hin as [Hin|Hin].
      { apply returned_ok in Hin. discriminate. }
      destruct Hin as [E|[]]. now injection E as <- <-. }
    exists (returned (open_call src) :: evs
              ++ map returned (plan nimg out pre ++ done)),
      (loaded_line src :: map (generated_line out) pre).
    split; [|split].
    + cbn [app]. now rewrite <- app_assoc.
    + reflexivity.
    + constructor; [reflexivity|].
      apply Forall_forall. intros line Hl.
      apply in_map_iff in Hl as (en & <- & _). reflexivity.
  - exfalso. destruct Hin as [E|Hin]; [discriminate|].
    apply in_app_or in Hin as [Hin|Hin].
    + destruct (normalized_events _ _ _ Hn _ _ Hin) as (_ & E & _).
      discriminate.
    + apply returned_ok in Hin. discriminate.
Qed.

(** The conversions a run makes: one, of the opened image to RGBA, when
    its mode is not RGBA. *)
Lemma convert_calls_of_run (src out : string) (f : FS) (img : Image) :
  sys_open src f = inr img ->
  (forall i m r, In (convert_call i m, r) (calls (run src out f)) ->
                 i = img /\ m = "RGBA" /\ mode img <> "RGBA")
  /\ (mode img <> "RGBA" ->
      exists r, In (convert_call img "RGBA", r) (calls (run src out f))).
Proof.
  intros Ho'.
  assert (Hentry : forall nimg en i m,
            ~ In (convert_call i m) (entry_calls nimg out en)).
  { intros nimg en i m [H|[H|[H|[]]]]; discriminate. }
  pose proof (run_has_shape src out f) as H.
  remember (run src out f) as w' eqn:E. clear E.
  destruct H as [e0 Ho | img0 e0 Ho Hm Hc
                | img0 nimg evs pre l s post done c0 rest e0 w0 w1
                    Ho Hn Es Ec Hp Hr Hk
                | img0 nimg evs w1 Ho Hn Hl]; cbn [calls];
    rewrite Ho' in Ho; try discriminate; injection Ho as <-.
  - split.
    + intros i m r [E|[E|[]]]; [discriminate|]. now injection E as <- <- _.
    + intros _. eexists. right. left. reflexivity.
  - split.
    + intros i m r [E|Hin]; [discriminate|].
      apply in_app_or in Hin as [Hin|Hin].
      { apply (normalized_events _ _ _ Hn) in Hin as (E & _ & Hm).
        now injection E as -> ->. }
      exfalso. apply in_app_or in Hin as [Hin|Hin].
      * apply in_returned in Hin as [Hin _].
        apply in_app_or in Hin as [Hin|Hin].
        { apply in_plan in Hin as (en & _ & Hin). now apply Hentry in Hin. }
        { apply (Hentry nimg (l, s) i m). rewrite Ec.
          apply in_or_app. now left. }
      * destruct Hin as [E|[]]. injection E as -> _.
        apply (Hentry nimg (l, s) i m). rewrite Ec. apply in_elt.
    + intros Hm. destruct Hn as [Hm' | n Hm' Hc]; [contradiction|].
      eexists. right. left. reflexivity.
  - split.
    + intros i m r [E|Hin]; [discriminate|].
      apply in_app_or in Hin as [Hin|Hin].
      { apply (normalized_events _ _ _ Hn) in Hin as (E & _ & Hm).
        now injection E as -> ->. }
      exfalso. apply in_returned in Hin as [Hin _].
      apply in_plan in Hin as (en & _ & Hin). now apply Hentry in Hin.
    + intros Hm. destruct Hn as [Hm' | n Hm' Hc]; [contradiction|].
      eexists. right. left. reflexivity.
Qed.

End ShapeFacts.

(** ** What a completed run leaves *)

Section Outputs.

Context {P : Platform} {L : PlatformLaws P}.

Lemma normalized_mode (img nimg : Image) (evs : list event) :
  normalized img nimg evs -> mode nimg = "RGBA".
Proof.
  intros [Hm | n Hm Hc]; [exact Hm|]. eapply convert_mode; eauto.
Qed.

(** A run in which no call raised: its history is the open, the
    conversion if there was one, and the calls of the loop in table order;
    every icon is on disk as resized from the normalized image. *)
Lemma completed_outputs (src out : string) (f : FS) :
  succeeded (run src out f) = true ->
  exists img nimg evs,
    sys_open src f = inr img
    /\ normalized img nimg evs
    /\ calls (run src out f)
       = returned (open_call src) :: evs ++ map returned (plan nimg out sizes)
    /\ stdout (run src out f)
       = loaded_line src :: map (generated_line out) sizes ++ [success_line]
    /\ forall l s, In (l, s) sizes ->
         sys_resize nimg (s, s) LANCZOS = inr (resized nimg s)
         /\ size (resized nimg s) = (s, s)
         /\ mode (resized nimg s) = "RGBA"
         /\ read_file (icon_path out l) (fs (run src out f))
            = Some (encode (resized nimg s) "PNG")
         /\ isdir (icon_dir out l) (fs (run src out f)) = true.
Proof.
  intros Hs. destruct (succeeded_shape src out f Hs)
    as (img & nimg & evs & w1 & Ho & Hn & Hl & E).
  exists img, nimg, evs. rewrite E. cbn [fs stdout calls].
  repeat split; auto;
    destruct sizes_ok as (Hnd & _ & Hok);
    destruct (loop_ok_files nimg out _ _ _ Hl Hnd Hok l s H) as (Hr & Hf & Hd);
    auto.
  - now apply (resize_size _ _ _ _ Hr).
  - destruct (resize_size _ _ _ _ Hr) as [_ Hm]. rewrite Hm.
    eapply normalized_mode; eauto.
Qed.

End Outputs.

(** * The claims *)

Section Claims.

Context {P : Platform} {L : PlatformLaws P}.

(** On a standard output that takes every line nothing gets out of
    [generate_android_icons]: whatever the library calls do, the
    [except Exception] block catches what they raise and the function
    returns [None]; the script ends with exit status 0.  The value returned
    is the same for a run that wrote the icons and for one that failed. *)
Lemma generate_never_raises :
  (forall src out w, fst (generate_android_icons src out w) = inr tt)
  /\ (forall src out w src' out' w',
        fst (generate_android_icons src out w)
        = fst (generate_android_icons src' out' w'))
  /\ (forall w, fst (main w) = inr tt /\ exit_status (fst (main w)) = 0).
Proof.
  assert (G : forall src out w, fst (generate_android_icons src out w) = inr tt).
  { intros src out w. destruct (generate_run src out w) as (w' & E & _).
    now rewrite E. }
  split; [exact G|]. split; [intros; now rewrite !G|]. intros w.
  assert (M : fst (main w) = inr tt).
  { unfold main, bind, os_path_exists.
    destruct (sys_path_exists source_image (fs w)); [apply G | reflexivity]. }
  now rewrite M.
Qed.

(** C3.  When the source image does not exist the script reports
    "Source image not found" and stops: the only library call is
    [os.path.exists], so the image is never opened, nothing is created or
    written, and the file system is as it was. *)
Theorem missing_source_has_no_side_effects (f : FS) :
  sys_path_exists source_image f = false ->
  fst (main (boot f)) = inr tt
  /\ fs (snd (main (boot f))) = f
  /\ stdout (snd (main (boot f))) = not_found_lines
  /\ calls (snd (main (boot f))) = [returned (exists_call source_image)].
Proof.
  intros H. unfold main, bind, os_path_exists. cbn [boot fs]. rewrite H.
  repeat split.
Qed.

(** When [Image.open] raises, the run prints the error with its cause and
    ends; [Image.open] is its only library call, so no directory is
    created, no file is written and the file system is as it was. *)
Lemma undecodable_source_writes_nothing (src out : string) (f : FS) (e : exc) :
  sys_open src f = inl e ->
  generate_android_icons src out (boot f)
  = (inr tt, mkWorld f [error_line e; hint_line] [raised (open_call src) e]).
Proof.
  intros H.
  unfold generate_android_icons, try_except, try_block, bind, Image_open,
    reading. cbn [boot fs]. rewrite H. reflexivity.
Qed.

(** C1.  The size table has exactly the five entries mdpi 48, hdpi 72,
    xhdpi 96, xxhdpi 144, xxxhdpi 192, all sizes positive; a run in which
    no call raised saved exactly one file per entry, to five different
    paths in table order, and each file on disk is the PNG encoding of an
    RGBA image of the entry's size. *)
Theorem size_table_and_icons :
  sizes = [ ("mipmap-mdpi", 48); ("mipmap-hdpi", 72); ("mipmap-xhdpi", 96);
            ("mipmap-xxhdpi", 144); ("mipmap-xxxhdpi", 192) ]
  /\ length sizes = 5%nat
  /\ (forall l s, In (l, s) sizes -> 0 < s)
  /\ forall src out f,
       succeeded (run src out f) = true ->
       saved_paths (calls (run src out f))
       = map (fun en => icon_path out (fst en)) sizes
       /\ NoDup (map (fun en => icon_path out (fst en)) sizes)
       /\ forall l s, In (l, s) sizes ->
            exists icon,
              read_file (icon_path out l) (fs (run src out f))
              = Some (encode icon "PNG")
              /\ mode icon = "RGBA" /\ size icon = (s, s).
Proof.
  split; [reflexivity|]. split; [reflexivity|]. split.
  { intros l s H. unfold sizes in H. cbn [In] in H.
    repeat (destruct H as [H|H]; [injection H as <- <-; lia|]). destruct H. }
  intros src out f Hs.
  destruct (completed_outputs src out f Hs)
    as (img & nimg & evs & Ho & Hn & Hc & _ & Hf).
  split; [|split].
  - rewrite Hc. cbn [saved_paths returned].
    rewrite saved_paths_app, saved_paths_plan.
    destruct Hn; reflexivity.
  - destruct sizes_ok as (Hnd & _ & Hok). rewrite Forall_forall in Hok.
    revert Hnd Hok. generalize sizes.
    induction l as [|en es IH]; cbn [map]; intros Hnd Hok; constructor.
    + inversion Hnd as [|? ? Hnotin _]; subst. intros Hin.
      apply in_map_iff in Hin as (en' & E & Hin).
      apply icon_path_inj in E; try (apply Hok; now (left + right)).
      apply Hnotin. rewrite <- E. now apply in_map.
    + inversion Hnd; subst. apply IH; auto. intros x Hx. apply Hok. now right.
  - intros l s Hin. destruct (Hf l s Hin) as (_ & Hsz & Hm & Hr & _).
    eauto.
Qed.

(** C2.  In a run in which no call raised, the loop goes through the
    table in order and for each entry [(label, size)] makes the directory,
    resizes the normalized image to [(size, size)] with the LANCZOS filter
    and saves the result as PNG to [output_dir/label/ic_launcher.png]; the
    resized image has exactly that size, and whatever the path held before
    the run, it holds the PNG encoding of the resized image after it. *)
Theorem loop_resizes_and_saves_in_table_order (src out : string) (f : FS) :
  succeeded (run src out f) = true ->
  exists img nimg evs,
    sys_open src f = inr img
    /\ normalized img nimg evs
    /\ calls (run src out f)
       = returned (open_call src) :: evs
           ++ map returned
                (flat_map
                   (fun en =>
                      [ makedirs_call (os_path_join out (fst en)) true;
                        resize_call nimg (snd en, snd en) LANCZOS;
                        save_call (resized nimg (snd en))
                          (os_path_join (os_path_join out (fst en))
                             "ic_launcher.png") "PNG" ])
                   sizes)
    /\ forall l s, In (l, s) sizes ->
         sys_resize nimg (s, s) LANCZOS = inr (resized nimg s)
         /\ size (resized nimg s) = (s, s)
         /\ read_file (os_path_join (os_path_join out l) "ic_launcher.png")
              (fs (run src out f))
            = Some (encode (resized nimg s) "PNG").
Proof.
  intros Hs.
  destruct (completed_outputs src out f Hs)
    as (img & nimg & evs & Ho & Hn & Hc & _ & Hf).
  exists img, nimg, evs. repeat split; auto; apply (Hf l s H).
Qed.

(** The entries before the one in which the loop stopped are on disk as
    they were saved. *)
Lemma earlier_entries_on_disk (out : string) (nimg : Image)
    (pre post : list (string * Z)) (l : string) (s : Z) (w w0 w1 : World)
    (e : exc) :
  sizes = pre ++ (l, s) :: post ->
  loop_run nimg out pre w (inr tt) w0 ->
  step_raises nimg out l s w0 e w1 ->
  forall l' s', In (l', s') pre ->
    size (resized nimg s') = (s', s')
    /\ read_file (icon_path out l') (fs w1)
       = Some (encode (resized nimg s') "PNG")
    /\ isdir (icon_dir out l') (fs w1) = true.
Proof.
  intros Es Hp Hr l' s' Hin.
  destruct sizes_ok as (Hnd & _ & Hok). rewrite Es in Hnd, Hok.
  assert (Hnd' : NoDup (map fst pre)).
  { rewrite map_app in Hnd. now apply NoDup_app_remove_r in Hnd. }
  apply Forall_app in Hok as [Hok' Hok].
  destruct (loop_ok_files nimg out _ _ _ Hp Hnd' Hok' l' s' Hin)
    as (Hrs & Hf & Hd).
  destruct (step_raises_frame nimg out _ _ _ _ _ Hr) as [Ff Fd].
  split; [now apply (resize_size _ _ _ _ Hrs)|]. split; [|auto].
  rewrite Ff; auto. intros E.
  apply icon_path_inj in E.
  - exact (split_before fst _ _ _ _ Hnd Hin E).
  - rewrite Forall_forall in Hok'. now apply (Hok' (l', s')).
  - now inversion Hok.
Qed.

(** C4.  When [os.makedirs] or [save] raises for a table entry, that call
    is the last library call of the run: no call of the history works on
    a later entry (no directory made, no resize, no file saved for it),
    and every earlier entry is still on disk as it was saved, in its
    directory.  Nothing is rolled back. *)
Theorem write_failure_stops_the_loop (src out : string) (f : FS)
    (pre post : list (string * Z)) (l : string) (s : Z) (c : call) (e : exc) :
  sizes = pre ++ (l, s) :: post ->
  In (raised c e) (calls (run src out f)) ->
  touches out (l, s) c -> writes c = true ->
  (exists h, calls (run src out f) = h ++ [raised c e])
  /\ (forall en c' r', In en post -> In (c', r') (calls (run src out f)) ->
                       ~ touches out en c')
  /\ (forall l' s', In (l', s') pre ->
        exists icon,
          In (returned (save_call icon (icon_path out l') "PNG"))
             (calls (run src out f))
          /\ size icon = (s', s')
          /\ read_file (icon_path out l') (fs (run src out f))
             = Some (encode icon "PNG")
          /\ isdir (icon_dir out l') (fs (run src out f)) = true).
Proof.
  intros Es Hin Ht _.
  destruct (raised_is_last src out f c e Hin) as (h & _ & Hlast & _).
  destruct (raised_at_entry src out f pre l s post c e Es Hin Ht)
    as (img & nimg & evs & done & rest & w0 & w1
        & Ho & Hn & Ec & Hp & Hr & Hk & E).
  split; [eauto|]. rewrite E. cbn [fs calls]. split.
  - intros en c' r' Hen Hc' Hten.
    destruct (history_call_entry _ _ _ _ _ _ _ _ _ _ _ _ _ _ Hn Ec Hc')
      as [Hno | (en1 & H1 & H2)]; [now apply (Hno en)|].
    destruct sizes_ok as (Hnd1 & Hnd2 & _). rewrite Es in Hnd1, Hnd2.
    assert (Hl1 : label_ok (fst en1) = true).
    { apply sizes_label_ok. rewrite Es.
      apply in_app_or in H1 as [H1|[<-|[]]];
        [apply in_or_app; now left | apply in_elt]. }
    assert (Hl2 : label_ok (fst en) = true).
    { apply sizes_label_ok. rewrite Es. apply in_or_app. right. now right. }
    destruct (touches_entry_calls nimg out en1 en c' Hl1 Hl2 H2 Hten) as [K|K].
    + exact (split_apart fst _ _ _ _ _ Hnd1 H1 Hen K).
    + exact (split_apart snd _ _ _ _ _ Hnd2 H1 Hen K).
  - intros l' s' Hl'.
    destruct (earlier_entries_on_disk out nimg pre post l s _ w0 w1 e
                Es Hp Hr l' s' Hl') as (Hsz & Hf & Hd).
    exists (resized nimg s'). repeat split; auto.
    right. apply in_or_app. right. apply in_or_app. left.
    apply in_map, in_or_app. left.
    apply in_plan. exists (l', s'). split; [exact Hl'|].
    right. right. left. reflexivity.
Qed.

(** C10.  In an iteration the directory is made before the image is
    resized and saved.  So when the resize or the save of a table entry
    raises, the history has the entry's [os.makedirs] call, returned,
    before the call that raised; the entry's directory is on disk; the run
    saved no file into it; and the earlier entries are fully written. *)
Theorem directory_is_made_before_resize_and_save (src out : string) (f : FS)
    (pre post : list (string * Z)) (l : string) (s : Z) (c : call) (e : exc) :
  sizes = pre ++ (l, s) :: post ->
  In (raised c e) (calls (run src out f)) ->
  touches out (l, s) c -> resize_or_save c = true ->
  isdir (icon_dir out l) (fs (run src out f)) = true
  /\ (exists h1 h2,
        calls (run src out f)
        = h1 ++ returned (makedirs_call (icon_dir out l) true) :: h2
             ++ [raised c e])
  /\ (forall icon fmt,
        ~ In (returned (save_call icon (icon_path out l) fmt))
             (calls (run src out f)))
  /\ (forall l' s', In (l', s') pre ->
        exists icon,
          size icon = (s', s')
          /\ read_file (icon_path out l') (fs (run src out f))
             = Some (encode icon "PNG")
          /\ isdir (icon_dir out l') (fs (run src out f)) = true).
Proof.
  intros Es Hin Ht Hrs.
  destruct (raised_at_entry src out f pre l s post c e Es Hin Ht)
    as (img & nimg & evs & done & rest & w0 & w1
        & Ho & Hn & Ec & Hp & Hr & Hk & E).
  rewrite E. cbn [fs calls].
  destruct (entry_calls_done _ _ _ _ _ _ Ec) as [[_ ->] | (done' & -> & Hns)];
    [discriminate|]. cbn [fst] in *.
  split; [|split; [|split]].
  - eapply step_raises_after_makedirs; eauto.
  - exists (returned (open_call src) :: evs ++ map returned (plan nimg out pre)),
      (map returned done').
    rewrite map_app. cbn [map app]. now rewrite <- !app_assoc.
  - intros icon fmt [K|K]; [discriminate|].
    apply in_app_or in K as [K|K].
    { destruct (normalized_events _ _ _ Hn _ _ K) as (K' & _). discriminate. }
    apply in_app_or in K as [K|[K|[]]]; [|discriminate].
    apply in_returned in K as [K _].
    apply in_app_or in K as [K|[K|K]]; [|discriminate|now apply Hns in K].
    apply in_plan in K as (en1 & H1 & H2).
    destruct sizes_ok as (Hnd1 & Hnd2 & _). rewrite Es in Hnd1, Hnd2.
    assert (Hl1 : label_ok (fst en1) = true).
    { apply sizes_label_ok. rewrite Es. apply in_or_app. now left. }
    assert (Hl2 : label_ok l = true).
    { apply (sizes_label_ok (l, s)). rewrite Es. apply in_elt. }
    destruct (touches_entry_calls nimg out en1 (l, s) _ Hl1 Hl2 H2 eq_refl)
      as [K|K].
    + exact (split_before fst _ _ _ _ Hnd1 H1 K).
    + exact (split_before snd _ _ _ _ Hnd2 H1 K).
  - intros l' s' Hl'.
    destruct (earlier_entries_on_disk out nimg pre post l s _ w0 w1 e
                Es Hp Hr l' s' Hl') as (Hsz & Hf & Hd).
    exists (resized nimg s'). auto.
Qed.

(** C5, as the code has it.  Whatever call raised, the run ends by
    printing one error line, the fixed prefix followed by the text of the
    exception, and the Pillow hint; no line before them is an error line.
    The report is made of the cause alone: the generator adds no label. *)
Theorem error_report_is_the_cause (src out : string) (f : FS)
    (c : call) (e : exc) :
  In (raised c e) (calls (run src out f)) ->
  exists before,
    stdout (run src out f) = before ++ [error_line e; hint_line]
    /\ Forall (fun line => String.prefix "❌ Error: " line = false) before.
Proof.
  intros Hin.
  destruct (raised_is_last src out f c e Hin) as (h & before & _ & H1 & H2).
  eauto.
Qed.

(** C7, as the code has it.  The opened image is converted, to RGBA,
    exactly when its mode is not RGBA: always when the mode has no alpha
    band, and also for the other modes that have one.  After a run in
    which no call raised every icon on disk is an RGBA image. *)
Theorem converts_unless_mode_is_RGBA (src out : string) (f : FS) (img : Image) :
  sys_open src f = inr img ->
  ((exists m r, In (convert_call img m, r) (calls (run src out f)))
   <-> mode img <> "RGBA")
  /\ (forall i m r, In (convert_call i m, r) (calls (run src out f)) ->
                    i = img /\ m = "RGBA")
  /\ (has_alpha (mode img) = false ->
      exists r, In (convert_call img "RGBA", r) (calls (run src out f)))
  /\ (succeeded (run src out f) = true ->
      forall l s, In (l, s) sizes ->
        exists icon,
          read_file (icon_path out l) (fs (run src out f))
          = Some (encode icon "PNG")
          /\ mode icon = "RGBA").
Proof.
  intros Ho. destruct (convert_calls_of_run src out f img Ho) as [H1 H2].
  split; [|split; [|split]].
  - split.
    + intros (m & r & Hin). now apply H1 in Hin.
    + intros Hm. destruct (H2 Hm) as [r Hr]. eauto.
  - intros i m r Hin. apply H1 in Hin. tauto.
  - intros Ha. apply H2. intros E. rewrite E in Ha. discriminate.
  - intros Hs l s Hin.
    destruct (completed_outputs src out f Hs)
      as (img' & nimg & evs & _ & _ & _ & _ & Hf).
    destruct (Hf l s Hin) as (_ & _ & Hm & Hr & _). eauto.
Qed.

(** C8.  Run the generator, then run it again on the file system the
    first run left.  When no call raises in either run and the source
    decodes to the same image both times, the second run saves the same
    five files again, and each holds after the second run exactly the
    bytes it held after the first. *)
Theorem second_run_rewrites_the_same_icons (src out : string) (f : FS) :
  succeeded (run src out f) = true ->
  succeeded (run src out (fs (run src out f))) = true ->
  sys_open src (fs (run src out f)) = sys_open src f ->
  saved_paths (calls (run src out (fs (run src out f))))
  = map (fun en => icon_path out (fst en)) sizes
  /\ forall l s, In (l, s) sizes ->
       exists icon,
         read_file (icon_path out l) (fs (run src out f))
         = Some (encode icon "PNG")
         /\ read_file (icon_path out l) (fs (run src out (fs (run src out f))))
            = Some (encode icon "PNG").
Proof.
  intros Hs1 Hs2 Hsame.
  destruct (completed_outputs src out f Hs1)
    as (img & nimg & evs & Ho & Hn & _ & _ & Hf).
  destruct (completed_outputs src out _ Hs2)
    as (img' & nimg' & evs' & Ho' & Hn' & Hc' & _ & Hf').
  rewrite Hsame, Ho in Ho'. injection Ho' as <-.
  destruct (normalized_fun _ _ _ _ _ Hn Hn') as [<- <-].
  split.
  - rewrite Hc'. cbn [saved_paths returned].
    rewrite saved_paths_app, saved_paths_plan. destruct Hn; reflexivity.
  - intros l s Hin. exists (resized nimg s).
    destruct (Hf l s Hin) as (_ & _ & _ & Hr & _).
    destruct (Hf' l s Hin) as (_ & _ & _ & Hr' & _). auto.
Qed.

End Claims.

(** * The executable platform meets the contract *)

Lemma lookup_head {A} (p : string) (a : A) (l : list (string * A)) :
  Sim.lookup p ((p, a) :: l) = Some a.
Proof. cbn [Sim.lookup]. now rewrite String.eqb_refl. Qed.

Lemma lookup_other {A} (p q : string) (a : A) (l : list (string * A)) :
  q <> p -> Sim.lookup q ((p, a) :: l) = Sim.lookup q l.
Proof.
  intros H. cbn [Sim.lookup]. apply String.eqb_neq in H. now rewrite H.
Qed.

Lemma sim_laws : PlatformLaws Sim.SimPlatform.
Proof.
  constructor; cbn [sys_convert sys_resize sys_makedirs sys_save isdir
                      read_file encode Sim.SimPlatform].
  - intros img m img' H. unfold Sim.sim_convert in H. now injection H as <-.
  - intros img sz flt img' H. unfold Sim.sim_resize in H.
    destruct (_ || _)%bool; [discriminate|]. injection H as <-. auto.
  - intros p eo f f' H. unfold Sim.sim_makedirs in H. unfold Sim.sim_isdir.
    destruct (Sim.lookup p (Sim.faults f)); [discriminate|].
    destruct (Sim.lookup p (Sim.nodes f)) as [[| |]|] eqn:E;
      try discriminate.
    + destruct eo; [|discriminate]. injection H as <-. now rewrite E.
    + injection H as <-. cbn [Sim.nodes]. now rewrite lookup_head.
  - intros p eo f r f' q H. unfold Sim.sim_makedirs in H.
    unfold Sim.sim_read_file.
    destruct (Sim.lookup p (Sim.faults f)); [now injection H as _ <-|].
    destruct (Sim.lookup p (Sim.nodes f)) as [[| |]|] eqn:E;
      try (now injection H as _ <-).
    + destruct eo; now injection H as _ <-.
    + injection H as _ <-. cbn [Sim.nodes].
      destruct (string_dec q p) as [->|Hq].
      * now rewrite lookup_head, E.
      * now rewrite lookup_other.
  - intros p eo f r f' q H Hd. unfold Sim.sim_makedirs in H.
    unfold Sim.sim_isdir in *.
    destruct (Sim.lookup p (Sim.faults f)); [now injection H as _ <-|].
    destruct (Sim.lookup p (Sim.nodes f)) as [[| |]|] eqn:E;
      try (now injection H as _ <-).
    + destruct eo; now injection H as _ <-.
    + injection H as _ <-. cbn [Sim.nodes].
      destruct (string_dec q p) as [->|Hq].
      * now rewrite lookup_head.
      * now rewrite lookup_other.
  - intros img p fmt f f' H. unfold Sim.sim_save in H.
    unfold Sim.sim_read_file.
    destruct (Sim.lookup p (Sim.faults f)); [discriminate|].
    destruct (Sim.lookup p (Sim.nodes f)) as [[| |]|]; try discriminate;
      injection H as <-; cbn [Sim.nodes]; now rewrite lookup_head.
  - intros img p fmt f r f' q H Hq. unfold Sim.sim_save in H.
    unfold Sim.sim_read_file.
    destruct (Sim.lookup p (Sim.faults f)); [now injection H as _ <-|].
    destruct (Sim.lookup p (Sim.nodes f)) as [[| |]|];
      injection H as _ <-; cbn [Sim.nodes]; try reflexivity;
      now rewrite lookup_other.
  - intros img p fmt f r f' q H Hd. unfold Sim.sim_save in H.
    unfold Sim.sim_isdir in *.
    destruct (Sim.lookup p (Sim.faults f)); [now injection H as _ <-|].
    destruct (Sim.lookup p (Sim.nodes f)) as [[| |]|] eqn:E;
      injection H as _ <-; cbn [Sim.nodes]; try exact Hd;
      (destruct (string_dec q p) as [->|Hq];
       [rewrite E in Hd; discriminate | now rewrite lookup_other]).
Qed.

(** * Further facts about the script *)

Section Further.

Context {P : Platform}.

(** X8.  For an output directory that is not empty and has no trailing
    separator, and a plain label, the icon goes to
    [output_dir/label/ic_launcher.png]. *)
Lemma icon_path_plain (out l : string) :
  out <> "" -> endswith_sep out = false -> label_ok l = true ->
  icon_path out l = (out ++ "/" ++ l ++ "/ic_launcher.png")%string.
Proof.
  intros Hne Hend Hl. rewrite (icon_path_eq _ _ Hl), (icon_dir_eq _ _ Hl).
  unfold sep_after. apply String.eqb_neq in Hne. rewrite Hne, Hend.
  cbn [orb]. now rewrite !append_assoc.
Qed.

(** The script's own call on an image that cannot be opened. *)
Lemma main_undecodable_source (f : FS) (e : exc) :
  sys_path_exists source_image f = true ->
  sys_open source_image f = inl e ->
  main (boot f)
  = (inr tt,
     mkWorld f [error_line e; hint_line]
       [returned (exists_call source_image);
        raised (open_call source_image) e]).
Proof.
  intros Hx Ho.
  unfold main, bind, os_path_exists, generate_android_icons, try_except,
    try_block, bind, Image_open, reading, record.
  cbn [boot fs stdout calls]. rewrite Hx. cbn [fs stdout calls].
  rewrite Ho. reflexivity.
Qed.

(** X7.  Pillow may decode lazily, so that bad pixel data surfaces in
    [convert]: the loop has not started then either.  The run prints the
    loaded line, the error and the hint; its only calls are the open and
    the conversion; the file system is as it was. *)
Lemma failed_conversion_writes_nothing (src out : string) (f : FS)
    (img : Image) (e : exc) :
  sys_open src f = inr img ->
  mode img <> "RGBA" ->
  sys_convert img "RGBA" = inl e ->
  run src out f
  = mkWorld f [loaded_line src; error_line e; hint_line]
      [returned (open_call src); raised (convert_call img "RGBA") e].
Proof.
  intros Ho Hm Hc.
  unfold run, generate_android_icons, try_except, try_block, bind,
    Image_open, convert, reading, record, print.
  cbn [boot fs stdout calls]. rewrite Ho. cbn [fs stdout calls].
  apply String.eqb_neq in Hm. rewrite Hm. cbn [negb].
  rewrite Hc. reflexivity.
Qed.

End Further.

(** * The theorems on the executable platform *)

Example default_icon_path :
  icon_path android_res_dir "mipmap-mdpi"
  = "android/app/src/main/res/mipmap-mdpi/ic_launcher.png".
Proof. reflexivity. Qed.

Example join_trailing_separator :
  os_path_join "res/" "mipmap-mdpi" = "res/mipmap-mdpi".
Proof. reflexivity. Qed.

Example join_empty_root : os_path_join "" "mipmap-mdpi" = "mipmap-mdpi".
Proof. reflexivity. Qed.

Example join_absolute : os_path_join "res" "/tmp/icons" = "/tmp/icons".
Proof. reflexivity. Qed.

Example str_int_sizes : map str_int (map snd sizes) = ["48"; "72"; "96"; "144"; "192"].
Proof. reflexivity. Qed.

(** The script on a tree that holds the logo: what it prints. *)
Example main_prints :
  stdout (snd (main (boot Sim.fs_logo)))
  = [ "Loaded source image: assets/images/app_logo.png";
      "Generated: android/app/src/main/res/mipmap-mdpi/ic_launcher.png (48x48)";
      "Generated: android/app/src/main/res/mipmap-hdpi/ic_launcher.png (72x72)";
      "Generated: android/app/src/main/res/mipmap-xhdpi/ic_launcher.png (96x96)";
      "Generated: android/app/src/main/res/mipmap-xxhdpi/ic_launcher.png (144x144)";
      "Generated: android/app/src/main/res/mipmap-xxxhdpi/ic_launcher.png (192x192)";
      "✅ Android icons generated successfully!" ].
Proof. vm_compute. reflexivity. Qed.

(** The same when the third directory cannot be made: two icons, then the
    error. *)
Example main_prints_on_failure :
  stdout (snd (main (boot Sim.fs_denied_third)))
  = [ "Loaded source image: assets/images/app_logo.png";
      "Generated: android/app/src/main/res/mipmap-mdpi/ic_launcher.png (48x48)";
      "Generated: android/app/src/main/res/mipmap-hdpi/ic_launcher.png (72x72)";
      "❌ Error: [Errno 13] Permission denied: 'android/app/src/main/res/mipmap-xhdpi'";
      "Make sure you have Pillow installed: pip install Pillow" ]
  /\ fst (main (boot Sim.fs_denied_third)) = inr tt.
Proof. vm_compute. split; reflexivity. Qed.

Ltac find_event := repeat first [left; reflexivity | right].

Lemma size_table_and_icons_witness :
  succeeded (run source_image android_res_dir Sim.fs_logo) = true
  /\ exists icon,
       read_file (icon_path android_res_dir "mipmap-xxxhdpi")
         (fs (run source_image android_res_dir Sim.fs_logo))
       = Some (encode icon "PNG")
       /\ mode icon = "RGBA" /\ size icon = (192, 192).
Proof.
  assert (Hs : succeeded (run source_image android_res_dir Sim.fs_logo) = true)
    by (vm_compute; reflexivity).
  split; [exact Hs|].
  destruct (size_table_and_icons (L := sim_laws)) as (_ & _ & _ & H).
  destruct (H source_image android_res_dir Sim.fs_logo Hs) as (_ & _ & Hf).
  apply Hf. unfold sizes. cbn [In]. find_event.
Defined.

Lemma loop_resizes_and_saves_in_table_order_witness :
  read_file "android/app/src/main/res/mipmap-mdpi/ic_launcher.png"
    Sim.fs_logo_RGBA = Some "stale"
  /\ succeeded (run source_image android_res_dir Sim.fs_logo_RGBA) = true
  /\ exists icon,
       size icon = (48, 48)
       /\ read_file "android/app/src/main/res/mipmap-mdpi/ic_launcher.png"
            (fs (run source_image android_res_dir Sim.fs_logo_RGBA))
          = Some (encode icon "PNG").
Proof.
  assert (Hs : succeeded (run source_image android_res_dir Sim.fs_logo_RGBA)
               = true) by (vm_compute; reflexivity).
  split; [reflexivity|]. split; [exact Hs|].
  destruct (loop_resizes_and_saves_in_table_order (L := sim_laws)
              source_image android_res_dir Sim.fs_logo_RGBA Hs)
    as (img & nimg & evs & _ & _ & _ & Hf).
  destruct (Hf "mipmap-mdpi" 48 (or_introl eq_refl)) as (_ & Hsz & Hfile).
  exists (resized nimg 48). split; [exact Hsz | exact Hfile].
Defined.

Lemma missing_source_has_no_side_effects_witness :
  sys_path_exists source_image Sim.fs_empty = false
  /\ fs (snd (main (boot Sim.fs_empty))) = Sim.fs_empty
  /\ stdout (snd (main (boot Sim.fs_empty))) = not_found_lines.
Proof.
  assert (H : sys_path_exists source_image Sim.fs_empty = false)
    by reflexivity.
  destruct (missing_source_has_no_side_effects (P := Sim.SimPlatform)
              Sim.fs_empty H)
    as (_ & Hf & Ho & _).
  auto.
Defined.

Lemma write_failure_stops_the_loop_witness :
  In (raised (makedirs_call "android/app/src/main/res/mipmap-xhdpi" true)
        (Sim.denied "android/app/src/main/res/mipmap-xhdpi"))
     (calls (run source_image android_res_dir Sim.fs_denied_third))
  /\ (forall c' r',
        In (c', r') (calls (run source_image android_res_dir
                              Sim.fs_denied_third)) ->
        ~ touches android_res_dir ("mipmap-xxhdpi", 144) c')
  /\ exists icon,
       size icon = (72, 72)
       /\ read_file (icon_path android_res_dir "mipmap-hdpi")
            (fs (run source_image android_res_dir Sim.fs_denied_third))
          = Some (encode icon "PNG").
Proof.
  assert (Hin : In (raised (makedirs_call
                              "android/app/src/main/res/mipmap-xhdpi" true)
                      (Sim.denied "android/app/src/main/res/mipmap-xhdpi"))
                   (calls (run source_image android_res_dir
                             Sim.fs_denied_third)))
    by (vm_compute; find_event).
  split; [exact Hin|].
  destruct (write_failure_stops_the_loop (L := sim_laws)
              source_image android_res_dir Sim.fs_denied_third
              [("mipmap-mdpi", 48); ("mipmap-hdpi", 72)]
              [("mipmap-xxhdpi", 144); ("mipmap-xxxhdpi", 192)]
              "mipmap-xhdpi" 96 _ _ eq_refl Hin eq_refl eq_refl)
    as (_ & Hpost & Hpre).
  split.
  - intros c' r'. apply Hpost. now left.
  - destruct (Hpre "mipmap-hdpi" 72 (or_intror (or_introl eq_refl)))
      as (icon & _ & Hsz & Hf & _).
    exists icon. split; [exact Hsz | exact Hf].
Defined.

Lemma directory_is_made_before_resize_and_save_witness :
  In (raised (save_call (Sim.icon 96)
                "android/app/src/main/res/mipmap-xhdpi/ic_launcher.png" "PNG")
        Sim.no_space)
     (calls (run source_image android_res_dir Sim.fs_full_third))
  /\ isdir "android/app/src/main/res/mipmap-xhdpi"
       (fs (run source_image android_res_dir Sim.fs_full_third)) = true
  /\ read_file "android/app/src/main/res/mipmap-xhdpi/ic_launcher.png"
       (fs (run source_image android_res_dir Sim.fs_full_third)) = None.
Proof.
  assert (Hin : In (raised (save_call (Sim.icon 96)
                      "android/app/src/main/res/mipmap-xhdpi/ic_launcher.png"
                      "PNG") Sim.no_space)
                   (calls (run source_image android_res_dir
                             Sim.fs_full_third)))
    by (vm_compute; find_event).
  split; [exact Hin|].
  destruct (directory_is_made_before_resize_and_save (L := sim_laws)
              source_image android_res_dir Sim.fs_full_third
              [("mipmap-mdpi", 48); ("mipmap-hdpi", 72)]
              [("mipmap-xxhdpi", 144); ("mipmap-xxxhdpi", 192)]
              "mipmap-xhdpi" 96 _ _ eq_refl Hin eq_refl eq_refl)
    as (Hdir & _).
  split; [exact Hdir | reflexivity].
Defined.

Lemma error_report_is_the_cause_witness :
  In (raised (save_call (Sim.icon 48)
                "android/app/src/main/res/mipmap-mdpi/ic_launcher.png" "PNG")
        Sim.no_space)
     (calls (run source_image android_res_dir Sim.fs_full))
  /\ exists before,
       stdout (run source_image android_res_dir Sim.fs_full)
       = before ++ ["❌ Error: [Errno 28] No space left on device"; hint_line]
       /\ Forall (fun line => String.prefix "❌ Error: " line = false) before.
Proof.
  assert (Hin : In (raised (save_call (Sim.icon 48)
                      "android/app/src/main/res/mipmap-mdpi/ic_launcher.png"
                      "PNG") Sim.no_space)
                   (calls (run source_image android_res_dir Sim.fs_full)))
    by (vm_compute; find_event).
  split; [exact Hin|].
  exact (error_report_is_the_cause (P := Sim.SimPlatform)
           source_image android_res_dir Sim.fs_full
           _ _ Hin).
Defined.

Lemma converts_unless_mode_is_RGBA_witness :
  sys_open source_image Sim.fs_logo_LA = inr (Sim.logo "LA")
  /\ has_alpha (mode (Sim.logo "LA")) = true
  /\ exists m r,
       In (convert_call (Sim.logo "LA") m, r)
          (calls (run source_image android_res_dir Sim.fs_logo_LA)).
Proof.
  assert (H : sys_open source_image Sim.fs_logo_LA = inr (Sim.logo "LA"))
    by reflexivity.
  split; [exact H|]. split; [reflexivity|].
  destruct (converts_unless_mode_is_RGBA (L := sim_laws)
              source_image android_res_dir Sim.fs_logo_LA _ H)
    as ((_ & Hconv) & _).
  apply Hconv. cbn [mode Sim.logo]. discriminate.
Defined.

Lemma second_run_rewrites_the_same_icons_witness :
  succeeded (run source_image android_res_dir Sim.fs_logo) = true
  /\ succeeded (run source_image android_res_dir
                  (fs (run source_image android_res_dir Sim.fs_logo))) = true
  /\ exists icon,
       read_file (icon_path android_res_dir "mipmap-hdpi")
         (fs (run source_image android_res_dir Sim.fs_logo))
       = Some (encode icon "PNG")
       /\ read_file (icon_path android_res_dir "mipmap-hdpi")
            (fs (run source_image android_res_dir
                   (fs (run source_image android_res_dir Sim.fs_logo))))
          = Some (encode icon "PNG").
Proof.
  assert (H1 : succeeded (run source_image android_res_dir Sim.fs_logo) = true)
    by (vm_compute; reflexivity).
  assert (H2 : succeeded (run source_image android_res_dir
                 (fs (run source_image android_res_dir Sim.fs_logo))) = true)
    by (vm_compute; reflexivity).
  assert (H3 : sys_open source_image
                 (fs (run source_image android_res_dir Sim.fs_logo))
               = sys_open source_image Sim.fs_logo)
    by (vm_compute; reflexivity).
  split; [exact H1|]. split; [exact H2|].
  destruct (second_run_rewrites_the_same_icons (L := sim_laws)
              source_image android_res_dir Sim.fs_logo H1 H2 H3) as (_ & Hf).
  apply (Hf "mipmap-hdpi" 72). unfold sizes. cbn [In]. find_event.
Defined.

(** * Where the wording of the specification fails *)

(** C5, as worded, fails: the disk fills up while the first icon is
    written; the error line is the text of the [OSError] and does not
    name [mipmap-mdpi]. *)
Lemma write_error_does_not_name_the_entry :
  ~ write_error_identifies_entry source_image android_res_dir Sim.fs_full.
Proof.
  intros H.
  specialize (H ("mipmap-mdpi", 48)
                (save_call (Sim.icon 48)
                   "android/app/src/main/res/mipmap-mdpi/ic_launcher.png"
                   "PNG")
                Sim.no_space (or_introl eq_refl)).
  assert (Hin : In (raised (save_call (Sim.icon 48)
                      "android/app/src/main/res/mipmap-mdpi/ic_launcher.png"
                      "PNG") Sim.no_space)
                   (calls (run source_image android_res_dir Sim.fs_full)))
    by (vm_compute; find_event).
  specialize (H Hin eq_refl eq_refl). vm_compute in H. discriminate H.
Qed.

(** C7, as worded, fails: a greyscale logo with alpha (mode LA) has an
    alpha channel and is converted all the same. *)
Lemma image_with_alpha_is_converted :
  ~ converts_exactly_when_alpha_missing source_image android_res_dir
      Sim.fs_logo_LA.
Proof.
  intros H. specialize (H (Sim.logo "LA") eq_refl). destruct H as [H _].
  assert (K : has_alpha (mode (Sim.logo "LA")) = false).
  { apply H. exists "RGBA", None. vm_compute. find_event. }
  vm_compute in K. discriminate K.
Qed.

(** * The script as a whole *)

(** ** Every run, completed or not *)

Section Keyed.

Context {A B : Type} (key : A -> B).

Lemma same_key (l : list A) (a b : A) :
  NoDup (map key l) -> In a l -> In b l -> key a = key b -> a = b.
Proof.
  induction l as [|x l IH]; cbn [map]; intros Hnd Ha Hb E; [destruct Ha|].
  inversion Hnd as [|? ? Hnotin Hnd']; subst.
  destruct Ha as [<-|Ha], Hb as [<-|Hb]; auto.
  - exfalso. apply Hnotin. rewrite E. now apply in_map.
  - exfalso. apply Hnotin. rewrite <- E. now apply in_map.
Qed.

End Keyed.

Lemma same_entry (en en' : string * Z) :
  In en sizes -> In en' sizes ->
  fst en = fst en' \/ snd en = snd en' -> en = en'.
Proof.
  intros H H' [E|E]; destruct sizes_ok as (Hnd1 & Hnd2 & _).
  - exact (same_key fst sizes en en' Hnd1 H H' E).
  - exact (same_key snd sizes en en' Hnd2 H H' E).
Qed.

Lemma saved_paths_none (l : list call) :
  (forall i p fmt, ~ In (save_call i p fmt) l) ->
  saved_paths (map returned l) = [].
Proof.
  induction l as [|c l IH]; intros H; [reflexivity|].
  cbn [map saved_paths returned].
  destruct c; try (apply IH; intros i p fmt K; apply (H i p fmt); now right).
  exfalso. apply (H img path format). now left.
Qed.

Lemma prefix_append (a b : string) : String.prefix a (a ++ b)%string = true.
Proof.
  induction a as [|c a IH]; cbn [String.append].
  - now destruct b.
  - cbn [String.prefix]. destruct (ascii_dec c c); [exact IH | contradiction].
Qed.

Lemma filter_generated (out : string) (es : list (string * Z)) :
  filter (String.prefix "Generated: ") (map (generated_line out) es)
  = map (generated_line out) es.
Proof.
  induction es as [|en es IH]; [reflexivity|].
  cbn [map filter].
  assert (E : String.prefix "Generated: " (generated_line out en) = true)
    by apply prefix_append.
  now rewrite E, IH.
Qed.

Section EveryRun.

Context {P : Platform}.

Lemma loop_ok_resized (img : Image) (out : string) es w w' :
  loop_run img out es w (inr tt) w' ->
  forall l s, In (l, s) es ->
    sys_resize img (s, s) LANCZOS = inr (resized img s).
Proof.
  intros H. remember (inr tt) as r eqn:Er.
  induction H as [w | l0 s0 es w w1 r w' Hs Hl IH | l0 s0 es w e w' Hs];
    intros l s Hin.
  - destruct Hin.
  - destruct Hin as [E|Hin]; [|now apply (IH Er l s)].
    injection E as -> ->. inversion Hs as [f1 r0 f2 Hm Hr Hsv]; subst.
    unfold resized. now rewrite Hr.
  - discriminate.
Qed.

(** The save that raised had a resized image to save. *)
Lemma step_raises_resized (img : Image) (out l : string) (s : Z) w e w'
    (done : list call) (c : call) :
  step_raises img out l s w e w' ->
  calls w' = calls w ++ map returned done ++ [raised c e] ->
  (exists i p fmt, c = save_call i p fmt) ->
  sys_resize img (s, s) LANCZOS = inr (resized img s).
Proof.
  intros H Hk (i & p & fmt & ->).
  inversion H as [e0 f1 Hm | e0 f1 Hm Hr | e0 f1 r f2 Hm Hr Hs]; subst;
    cbn [calls] in Hk; apply app_inv_head in Hk.
  - change [raised (makedirs_call (icon_dir out l) true) e]
      with ([] ++ [raised (makedirs_call (icon_dir out l) true) e]) in Hk.
    apply app_inj_tail in Hk as [_ Hk]. discriminate.
  - change [returned (makedirs_call (icon_dir out l) true);
            raised (resize_call img (s, s) LANCZOS) e]
      with ([returned (makedirs_call (icon_dir out l) true)]
              ++ [raised (resize_call img (s, s) LANCZOS) e]) in Hk.
    apply app_inj_tail in Hk as [_ Hk]. discriminate.
  - unfold resized. now rewrite Hr.
Qed.

(** The calls of a run: the open, the conversion to RGBA, and calls of
    table entries on the normalized image. *)
Lemma call_of_run (src out : string) (f : FS) (c : call) (r : option exc) :
  In (c, r) (calls (run src out f)) ->
  c = open_call src
  \/ (exists i, c = convert_call i "RGBA")
  \/ (exists img nimg evs en,
        sys_open src f = inr img /\ normalized img nimg evs
        /\ In en sizes /\ In c (entry_calls nimg out en)
        /\ ((exists i p fmt, c = save_call i p fmt) ->
            sys_resize nimg (snd en, snd en) LANCZOS
            = inr (resized nimg (snd en)))).
Proof.
  intros Hin.
  pose proof (run_has_shape src out f) as H.
  remember (run src out f) as w' eqn:E. clear E.
  destruct H as [e0 Ho | img e0 Ho Hm Hc
                | img nimg evs pre l s post done c0 rest e0 w0 w1
                    Ho Hn Es Ec Hp Hr Hk
                | img nimg evs w1 Ho Hn Hl]; cbn [calls] in Hin.
  - destruct Hin as [E|[]]. injection E as <- _. now left.
  - destruct Hin as [E|[E|[]]]; injection E as <- _; [now left|].
    right. left. eauto.
  - destruct Hin as [E|Hin]; [injection E as <- _; now left|].
    apply in_app_or in Hin as [Hin|Hin].
    { destruct (normalized_events _ _ _ Hn _ _ Hin) as (-> & _).
      right. left. eauto. }
    right. right. exists img, nimg, evs.
    assert (Hcur : In (l, s) sizes) by (rewrite Es; apply in_elt).
    apply in_app_or in Hin as [Hin|Hin].
    + apply in_returned in Hin as [Hin _].
      apply in_app_or in Hin as [Hin|Hin].
      * apply in_plan in Hin as ([l1 s1] & H1 & H2).
        exists (l1, s1). repeat split; auto.
        { rewrite Es. apply in_or_app. now left. }
        intros _. cbn [snd]. eapply loop_ok_resized; eauto.
      * exists (l, s). repeat split; auto.
        { rewrite Ec. apply in_or_app. now left. }
        intros (i & p & fmt & ->). exfalso.
        destruct (entry_calls_done _ _ _ _ _ _ Ec)
          as [[-> _] | (done' & -> & Hns)]; [destruct Hin|].
        destruct Hin as [K|K]; [discriminate | now apply Hns in K].
    + destruct Hin as [E|[]]. injection E as <- _.
      exists (l, s). repeat split; auto.
      { rewrite Ec. apply in_elt. }
      intros Hsv. cbn [snd]. eapply step_raises_resized; eauto.
  - destruct Hin as [E|Hin]; [injection E as <- _; now left|].
    apply in_app_or in Hin as [Hin|Hin].
    { destruct (normalized_events _ _ _ Hn _ _ Hin) as (-> & _).
      right. left. eauto. }
    right. right. exists img, nimg, evs.
    apply in_returned in Hin as [Hin _].
    apply in_plan in Hin as ([l1 s1] & H1 & H2).
    exists (l1, s1). repeat split; auto.
    intros _. cbn [snd]. eapply loop_ok_resized; eauto.
Qed.

(** X3.  The calls by which a run changes the file system, whether they
    returned or raised, are of two kinds only: [os.makedirs] of a table
    entry's directory with [exist_ok=True], and a save in PNG format to a
    table entry's [ic_launcher.png].  (What [os.makedirs] itself creates
    on the way, the missing parents, is the library's part.) *)
Theorem writes_go_to_the_icon_paths (src out : string) (f : FS)
    (c : call) (r : option exc) :
  In (c, r) (calls (run src out f)) ->
  writes c = true ->
  exists en,
    In en sizes
    /\ (c = makedirs_call (icon_dir out (fst en)) true
        \/ exists i, c = save_call i (icon_path out (fst en)) "PNG").
Proof.
  intros Hin Hw.
  destruct (call_of_run src out f c r Hin)
    as [-> | [(i & ->) | (img & nimg & evs & en & _ & _ & Hen & Hc & _)]];
    try discriminate.
  exists en. split; [exact Hen|].
  destruct Hc as [<-|[<-|[<-|[]]]]; [now left | discriminate | right; eauto].
Qed.

(** X4.  Every image the run saves is one LANCZOS resize of the normalized
    source image (the opened image, or its conversion to RGBA) to the size
    of the entry it is saved for: no icon is made from another icon. *)
Theorem icons_are_resized_from_the_source (src out : string) (f : FS)
    (i : Image) (p fmt : string) (r : option exc) :
  In (save_call i p fmt, r) (calls (run src out f)) ->
  exists img nimg evs en,
    sys_open src f = inr img
    /\ normalized img nimg evs
    /\ In en sizes
    /\ p = icon_path out (fst en) /\ fmt = "PNG"
    /\ sys_resize nimg (snd en, snd en) LANCZOS = inr i.
Proof.
  intros Hin.
  destruct (call_of_run src out f _ r Hin)
    as [K | [(j & K) | (img & nimg & evs & en & Ho & Hn & Hen & Hc & Hr)]];
    try discriminate.
  exists img, nimg, evs, en.
  destruct Hc as [K|[K|[K|[]]]]; try discriminate.
  injection K as <- <- <-. repeat split; auto.
  apply Hr. eauto.
Qed.

(** X6.  The "Generated:" lines are the files that were saved: in any
    run, completed or not, the entries whose save returned are a first part
    of the table, and exactly those have their line in the output. *)
Theorem generated_lines_are_saved_files (src out : string) (f : FS) :
  exists pre post,
    sizes = pre ++ post
    /\ saved_paths (calls (run src out f))
       = map (fun en => icon_path out (fst en)) pre
    /\ filter (String.prefix "Generated: ") (stdout (run src out f))
       = map (generated_line out) pre.
Proof.
  pose proof (run_has_shape src out f) as H.
  remember (run src out f) as w' eqn:E. clear E.
  destruct H as [e0 Ho | img e0 Ho Hm Hc
                | img nimg evs pre l s post done c0 rest e0 w0 w1
                    Ho Hn Es Ec Hp Hr Hk
                | img nimg evs w1 Ho Hn Hl]; cbn [calls stdout].
  - exists [], sizes. repeat split.
  - exists [], sizes. repeat split.
  - exists pre, ((l, s) :: post). split; [exact Es|]. split.
    + cbn [saved_paths returned].
      rewrite !saved_paths_app, map_app, saved_paths_app, saved_paths_plan.
      assert (Hd : saved_paths (map returned done) = []).
      { apply saved_paths_none.
        destruct (entry_calls_done _ _ _ _ _ _ Ec)
          as [[-> _] | (done' & -> & Hns)].
        - intros i p fmt [].
        - intros i p fmt [K|K]; [discriminate | now apply Hns in K]. }
      assert (Hl : saved_paths [raised c0 e0] = []) by now destruct c0.
      rewrite Hd, Hl, !app_nil_r.
      destruct Hn; reflexivity.
    + change (loaded_line src :: map (generated_line out) pre
                ++ [error_line e0; hint_line])
        with ([loaded_line src] ++ map (generated_line out) pre
                ++ [error_line e0; hint_line]).
      rewrite !filter_app, filter_generated. cbn [filter].
      replace (String.prefix "Generated: " (loaded_line src))
        with false by reflexivity.
      replace (String.prefix "Generated: " (error_line e0))
        with false by reflexivity.
      replace (String.prefix "Generated: " hint_line)
        with false by reflexivity.
      now rewrite app_nil_r.
  - exists sizes, []. split; [now rewrite app_nil_r|]. split.
    + cbn [saved_paths returned].
      rewrite saved_paths_app, saved_paths_plan.
      destruct Hn; reflexivity.
    + change (loaded_line src :: map (generated_line out) sizes
                ++ [success_line])
        with ([loaded_line src] ++ map (generated_line out) sizes
                ++ [success_line]).
      rewrite !filter_app, filter_generated. cbn [filter].
      replace (String.prefix "Generated: " (loaded_line src))
        with false by reflexivity.
      replace (String.prefix "Generated: " success_line)
        with false by reflexivity.
      now rewrite app_nil_r.
Qed.

End EveryRun.

(** ** Order and frame *)

Section OrderAndFrame.

Context {P : Platform}.

(** One more iteration, whole or cut short, keeps the directory first. *)
Lemma dir_first_step (out : string) (h : list event) (l : string) (s : Z)
    (r0 : option exc) (tail : list event) :
  dir_first out h ->
  In (l, s) sizes ->
  (tail = [] \/ r0 = None) ->
  (forall c r, In (c, r) tail -> touches out (l, s) c) ->
  dir_first out (h ++ (makedirs_call (icon_dir out l) true, r0) :: tail).
Proof.
  intros Hh Hls Hr0 Htail h1 c r h2 en E Hen Ht Hrs.
  apply app_eq_app in E as (k & [[E1 E2] | [E1 E2]]).
  - destruct k as [|x k]; cbn [app] in E2.
    + injection E2 as -> _ _. discriminate.
    + injection E2 as <- _. apply (Hh h1 c r k en); auto.
  - destruct k as [|x k]; cbn [app] in E2.
    + injection E2 as <- _ _. discriminate.
    + injection E2 as <- E2.
      assert (Hin : In (c, r) tail) by (rewrite E2; apply in_elt).
      assert (Een : (l, s) = en).
      { apply same_entry; auto. apply Htail in Hin.
        destruct c; try discriminate; cbn [touches] in Hin, Ht.
        - right. rewrite Hin in Ht. now injection Ht.
        - left. cbn [fst].
          apply (icon_path_inj out); try (now apply sizes_label_ok).
          + now apply (sizes_label_ok (l, s)).
          + cbn [fst] in Hin. congruence. }
      subst en. cbn [fst].
      destruct Hr0 as [->| ->].
      * now apply app_cons_not_nil in E2.
      * rewrite E1. apply in_elt.
Qed.

Lemma dir_first_loop (img : Image) (out : string) es w r w' :
  loop_run img out es w r w' ->
  incl es sizes ->
  dir_first out (calls w) -> dir_first out (calls w').
Proof.
  induction 1 as [w | l s es w w1 r w' Hs Hl IH | l s es w e w' Hs];
    intros Hincl Hw.
  - exact Hw.
  - apply IH; [intros x Hx; apply Hincl; now right|].
    inversion Hs as [f1 r0 f2 Hm Hr Hsv]; subst. cbn [calls map entry_calls].
    apply (dir_first_step out _ l s); auto.
    + apply Hincl. now left.
    + intros c r1 [K|[K|[]]]; injection K as <- _; reflexivity.
  - assert (Hls : In (l, s) sizes) by (apply Hincl; now left).
    inversion Hs as [e0 f1 Hm | e0 f1 Hm Hr | e0 f1 r0 f2 Hm Hr Hsv]; subst;
      cbn [calls]; apply (dir_first_step out _ l s); auto.
    + intros c r1 [].
    + intros c r1 [K|[]]. injection K as <- _. reflexivity.
    + intros c r1 [K|[K|[]]]; injection K as <- _; reflexivity.
Qed.

(** X9.  In every run, completed or not, and for every table entry: a
    resize to the entry's size or a save to the entry's file comes after an
    [os.makedirs] of the entry's directory that returned. *)
Theorem directory_first_in_every_iteration (src out : string) (f : FS)
    (h1 h2 : list event) (c : call) (r : option exc) (en : string * Z) :
  calls (run src out f) = h1 ++ (c, r) :: h2 ->
  In en sizes -> touches out en c -> resize_or_save c = true ->
  In (returned (makedirs_call (icon_dir out (fst en)) true)) h1.
Proof.
  assert (Hbase : forall h : list event,
            (forall c r, In (c, r) h -> resize_or_save c = false) ->
            dir_first out h).
  { intros h Hh k1 c0 r0 k2 en0 E _ _ Hrs. exfalso.
    rewrite (Hh c0 r0) in Hrs; [discriminate|]. rewrite E. apply in_elt. }
  assert (Hall : dir_first out (calls (run src out f))).
  { pose proof (run_gen_run src out f) as H.
    remember (run src out f) as w' eqn:E. clear E.
    destruct H as [e Ho | img e Ho Hm Hc | img nimg evs e w1 Ho Hn Hl
                  | img nimg evs w1 Ho Hn Hl];
      cbn [boot fs stdout calls app] in *.
    - apply Hbase. intros c0 r0 [K|[]]. now injection K as <- _.
    - apply Hbase. intros c0 r0 [K|[K|[]]]; now injection K as <- _.
    - apply (dir_first_loop _ _ _ _ _ _ Hl); [apply incl_refl|].
      apply Hbase. intros c0 r0 [K|K]; [now injection K as <- _|].
      now destruct (normalized_events _ _ _ Hn _ _ K) as (-> & _).
    - apply (dir_first_loop _ _ _ _ _ _ Hl); [apply incl_refl|].
      apply Hbase. intros c0 r0 [K|K]; [now injection K as <- _|].
      now destruct (normalized_events _ _ _ Hn _ _ K) as (-> & _). }
  intros E. exact (Hall h1 c r h2 en E).
Qed.

Context {L : PlatformLaws P}.

(** X2.  The run leaves everything else alone: no directory that was
    there is removed, and a path that is not one of the five icon paths
    holds after the run what it held before.  In particular the source
    image is not touched, unless it is itself one of the icon paths. *)
Theorem only_the_icon_files_change (src out : string) (f : FS) :
  (forall d, isdir d f = true -> isdir d (fs (run src out f)) = true)
  /\ (forall q, (forall en, In en sizes -> q <> icon_path out (fst en)) ->
                read_file q (fs (run src out f)) = read_file q f).
Proof.
  pose proof (run_gen_run src out f) as H.
  remember (run src out f) as w' eqn:E. clear E.
  destruct H as [e Ho | img e Ho Hm Hc | img nimg evs e w1 Ho Hn Hl
                | img nimg evs w1 Ho Hn Hl];
    cbn [boot fs stdout calls app] in *; try (split; auto; fail);
    destruct (loop_frame nimg out _ _ _ _ Hl) as [Hf Hd];
    cbn [fs] in Hf, Hd; auto.
Qed.

End OrderAndFrame.

(** * The further theorems on the executable platforms *)

Lemma only_the_icon_files_change_witness :
  (forall en, In en sizes ->
              source_image <> icon_path android_res_dir (fst en))
  /\ read_file source_image
       (fs (run source_image android_res_dir Sim.fs_logo))
     = read_file source_image Sim.fs_logo.
Proof.
  assert (H : forall en, In en sizes ->
                         source_image <> icon_path android_res_dir (fst en)).
  { intros en Hen. unfold sizes in Hen. cbn [In] in Hen.
    repeat (destruct Hen as [<-|Hen]; [discriminate|]). destruct Hen. }
  split; [exact H|].
  destruct (only_the_icon_files_change (L := sim_laws)
              source_image android_res_dir Sim.fs_logo) as [_ Hq].
  exact (Hq source_image H).
Defined.

Lemma writes_go_to_the_icon_paths_witness :
  In (raised (makedirs_call "android/app/src/main/res/mipmap-xhdpi" true)
        (Sim.denied "android/app/src/main/res/mipmap-xhdpi"))
     (calls (run source_image android_res_dir Sim.fs_denied_third))
  /\ exists en,
       In en sizes
       /\ (makedirs_call "android/app/src/main/res/mipmap-xhdpi" true
           = makedirs_call (icon_dir android_res_dir (fst en)) true
           \/ exists i,
                makedirs_call "android/app/src/main/res/mipmap-xhdpi" true
                = save_call i (icon_path android_res_dir (fst en)) "PNG").
Proof.
  assert (Hin : In (raised (makedirs_call
                              "android/app/src/main/res/mipmap-xhdpi" true)
                      (Sim.denied "android/app/src/main/res/mipmap-xhdpi"))
                   (calls (run source_image android_res_dir
                             Sim.fs_denied_third)))
    by (vm_compute; find_event).
  split; [exact Hin|].
  exact (writes_go_to_the_icon_paths (P := Sim.SimPlatform)
           source_image android_res_dir Sim.fs_denied_third _ _ Hin eq_refl).
Defined.

Lemma icons_are_resized_from_the_source_witness :
  In (returned (save_call (Sim.icon 72)
                  "android/app/src/main/res/mipmap-hdpi/ic_launcher.png"
                  "PNG"))
     (calls (run source_image android_res_dir Sim.fs_logo))
  /\ exists img nimg evs en,
       sys_open source_image Sim.fs_logo = inr img
       /\ normalized img nimg evs
       /\ In en sizes
       /\ "android/app/src/main/res/mipmap-hdpi/ic_launcher.png"
          = icon_path android_res_dir (fst en)
       /\ "PNG" = "PNG"
       /\ sys_resize nimg (snd en, snd en) LANCZOS = inr (Sim.icon 72).
Proof.
  assert (Hin : In (returned (save_call (Sim.icon 72)
                      "android/app/src/main/res/mipmap-hdpi/ic_launcher.png"
                      "PNG"))
                   (calls (run source_image android_res_dir Sim.fs_logo)))
    by (vm_compute; find_event).
  split; [exact Hin|].
  exact (icons_are_resized_from_the_source (P := Sim.SimPlatform)
           source_image android_res_dir Sim.fs_logo _ _ _ _ Hin).
Defined.

Lemma directory_first_in_every_iteration_witness :
  calls (run source_image android_res_dir Sim.fs_full)
  = firstn 4 (calls (run source_image android_res_dir Sim.fs_full))
      ++ raised (save_call (Sim.icon 48)
                   "android/app/src/main/res/mipmap-mdpi/ic_launcher.png"
                   "PNG") Sim.no_space
      :: []
  /\ In (returned (makedirs_call "android/app/src/main/res/mipmap-mdpi" true))
        (firstn 4 (calls (run source_image android_res_dir Sim.fs_full))).
Proof.
  assert (E : calls (run source_image android_res_dir Sim.fs_full)
              = firstn 4 (calls (run source_image android_res_dir Sim.fs_full))
                  ++ raised (save_call (Sim.icon 48)
                       "android/app/src/main/res/mipmap-mdpi/ic_launcher.png"
                       "PNG") Sim.no_space
                  :: [])
    by (vm_compute; reflexivity).
  split; [exact E|].
  exact (directory_first_in_every_iteration (P := Sim.SimPlatform)
           source_image android_res_dir Sim.fs_full _ _ _ _
           ("mipmap-mdpi", 48) E (or_introl eq_refl) eq_refl eq_refl).
Defined.

Lemma failed_conversion_writes_nothing_witness :
  @sys_open LazyPlatform source_image Sim.fs_logo = inr (Sim.logo "RGB")
  /\ @sys_convert LazyPlatform (Sim.logo "RGB") "RGBA" = inl truncated
  /\ @run LazyPlatform source_image android_res_dir Sim.fs_logo
     = @mkWorld LazyPlatform Sim.fs_logo
         [loaded_line source_image; error_line truncated; hint_line]
         [returned (open_call source_image);
          raised (convert_call (Sim.logo "RGB") "RGBA") truncated].
Proof.
  assert (Ho : @sys_open LazyPlatform source_image Sim.fs_logo
               = inr (Sim.logo "RGB")) by reflexivity.
  assert (Hc : @sys_convert LazyPlatform (Sim.logo "RGB") "RGBA"
               = inl truncated) by reflexivity.
  assert (Hm : mode (Sim.logo "RGB") <> "RGBA") by discriminate.
  split; [exact Ho|]. split; [exact Hc|].
  exact (failed_conversion_writes_nothing (P := LazyPlatform)
           source_image android_res_dir Sim.fs_logo _ _ Ho Hm Hc).
Defined.

Lemma icon_path_plain_witness :
  "res" <> "" /\ endswith_sep "res" = false /\ label_ok "mipmap-hdpi" = true
  /\ icon_path "res" "mipmap-hdpi" = "res/mipmap-hdpi/ic_launcher.png".
Proof.
  assert (H1 : "res" <> "") by discriminate.
  assert (H2 : endswith_sep "res" = false) by reflexivity.
  assert (H3 : label_ok "mipmap-hdpi" = true) by reflexivity.
  split; [exact H1|]. split; [exact H2|]. split; [exact H3|].
  exact (icon_path_plain "res" "mipmap-hdpi" H1 H2 H3).
Defined.

(** * Decoding happens once *)

Section DecodeOnce.

Context {P : Platform}.

Lemma entry_call_kind (img : Image) (out : string) (en : string * Z) (c : call) :
  In c (entry_calls img out en) ->
  (forall p, c <> open_call p) /\ (forall i m, c <> convert_call i m).
Proof. intros [<-|[<-|[<-|[]]]]; split; discriminate. Qed.

(** X10.  Every run starts with [Image.open] on the source path and never
    opens an image again; a conversion, if there is one, is the call right
    after the open, and there is no second one. *)
Theorem source_is_decoded_once (src out : string) (f : FS) :
  exists r0 rest,
    calls (run src out f) = (open_call src, r0) :: rest
    /\ (forall p r, ~ In (open_call p, r) rest)
    /\ (forall i m r, In (convert_call i m, r) rest ->
          exists rest',
            rest = (convert_call i m, r) :: rest'
            /\ forall i' m' r', ~ In (convert_call i' m', r') rest').
Proof.
  assert (Hloop : forall nimg (cs : list call) (c0 : call) (tl : list event),
            (forall c, In c cs -> exists en, In c (entry_calls nimg out en)) ->
            (forall ev, In ev tl ->
                        exists en, In (fst ev) (entry_calls nimg out en)) ->
            forall ev, In ev (map returned cs ++ tl) ->
              (forall p, fst ev <> open_call p)
              /\ (forall i m, fst ev <> convert_call i m)).
  { intros nimg cs c0 tl Hcs Htl ev Hin.
    apply in_app_or in Hin as [Hin|Hin].
    - apply in_map_iff in Hin as (c & <- & Hc).
      destruct (Hcs c Hc) as (en & Hen). exact (entry_call_kind _ _ _ _ Hen).
    - destruct (Htl ev Hin) as (en & Hen).
      exact (entry_call_kind _ _ _ _ Hen). }
  pose proof (run_has_shape src out f) as H.
  remember (run src out f) as w' eqn:E. clear E.
  destruct H as [e0 Ho | img e0 Ho Hm Hc
                | img nimg evs pre l s post done c0 rest e0 w0 w1
                    Ho Hn Es Ec Hp Hr Hk
                | img nimg evs w1 Ho Hn Hl]; cbn [calls].
  - exists (Some e0), []. split; [reflexivity|].
    split; [intros p r [] | intros i m r []].
  - exists None, [raised (convert_call img "RGBA") e0].
    split; [reflexivity|]. split.
    + intros p r [K|[]]. discriminate.
    + intros i m r [K|[]]. injection K as <- <- <-.
      exists []. split; [reflexivity|]. intros i' m' r' [].
  - exists None, (evs ++ map returned (plan nimg out pre ++ done)
                    ++ [raised c0 e0]).
    split; [reflexivity|].
    assert (Hrest : forall ev,
              In ev (map returned (plan nimg out pre ++ done)
                       ++ [raised c0 e0]) ->
              (forall p, fst ev <> open_call p)
              /\ (forall i m, fst ev <> convert_call i m)).
    { apply (Hloop nimg _ c0).
      - intros c Hc. apply in_app_or in Hc as [Hc|Hc].
        + apply in_plan in Hc as (en & _ & Hc). eauto.
        + exists (l, s). rewrite Ec. apply in_or_app. now left.
      - intros ev [<-|[]]. exists (l, s). rewrite Ec. apply in_elt. }
    split.
    + intros p r K. apply in_app_or in K as [K|K].
      * destruct (normalized_events _ _ _ Hn _ _ K) as (K' & _). discriminate.
      * apply Hrest in K as [K _]. now apply (K p).
    + intros i m r K. destruct Hn as [Hm | n Hm Hc]; cbn [app] in *.
      * apply Hrest in K as [_ K]. now destruct (K i m).
      * destruct K as [K|K].
        { injection K as <- <- <-. eexists. split; [reflexivity|].
          intros i' m' r' K. apply Hrest in K as [_ K]. now apply (K i' m'). }
        { apply Hrest in K as [_ K]. now destruct (K i m). }
  - exists None, (evs ++ map returned (plan nimg out sizes)).
    split; [reflexivity|].
    assert (Hrest : forall ev,
              In ev (map returned (plan nimg out sizes)) ->
              (forall p, fst ev <> open_call p)
              /\ (forall i m, fst ev <> convert_call i m)).
    { intros ev K. apply (Hloop nimg (plan nimg out sizes) (open_call src) []).
      - intros c Hc. apply in_plan in Hc as (en & _ & Hc). eauto.
      - intros ev' [].
      - now rewrite app_nil_r. }
    split.
    + intros p r K. apply in_app_or in K as [K|K].
      * destruct (normalized_events _ _ _ Hn _ _ K) as (K' & _). discriminate.
      * apply Hrest in K as [K _]. now apply (K p).
    + intros i m r K. destruct Hn as [Hm | n Hm Hc]; cbn [app] in *.
      * apply Hrest in K as [_ K]. now destruct (K i m).
      * destruct K as [K|K].
        { injection K as <- <- <-. eexists. split; [reflexivity|].
          intros i' m' r' K. apply Hrest in K as [_ K]. now apply (K i' m'). }
        { apply Hrest in K as [_ K]. now destruct (K i m). }
Qed.

End DecodeOnce.

(** * A source that opens but does not decode *)


Section Undecoded.

Context {P : Platform} {L : PlatformLaws P}.


End Undecoded.



(** * A standard output that refuses a line *)

Section ConsoleFacts.

Context {P : Platform}.

(** On a standard output that takes every line the script is the one
    studied so far. *)
Lemma utf8_generate (src out : string) :
  Console.generate_android_icons Console.utf8 src out
  = generate_android_icons src out.
Proof. reflexivity. Qed.

Lemma utf8_main : Console.main Console.utf8 = main.
Proof. reflexivity. Qed.

Variable accepts : string -> option exc.

Lemma except_block_raises (e0 e : exc) (w : World) :
  fst (Console.except_block accepts e0 w) = inl e ->
  accepts hint_line = Some e \/ accepts (error_line e0) = Some e.
Proof.
  unfold Console.except_block, bind, Console.print.
  fold (error_line e0). fold hint_line.
  destruct (accepts (error_line e0)) as [e1|]; cbn [fst].
  - intros K. injection K as ->. now right.
  - destruct (accepts hint_line) as [e1|]; cbn [fst]; [|discriminate].
    intros K. injection K as ->. now left.
Qed.

Lemma generate_raises (src out : string) (w : World) (e : exc) :
  fst (Console.generate_android_icons accepts src out w) = inl e ->
  accepts hint_line = Some e \/ exists e0, accepts (error_line e0) = Some e.
Proof.
  unfold Console.generate_android_icons, try_except.
  destruct (Console.try_block accepts src out w) as [[e0|[]] w1].
  - intros K. apply except_block_raises in K as [K|K]; eauto.
  - discriminate.
Qed.

Variable imported : option exc.

(** C9, as the code has it.  The handler catches whatever the [try] block
    raises, so an exception that reaches the caller of
    [generate_android_icons] was raised by one of the two [print] calls of
    the handler itself; one that ends the script was raised by the import
    of Pillow, by one of those two calls, or by the two [print] calls of
    the [else] branch.  When the standard output takes every line the
    function returns [None] on every path, and when moreover Pillow
    imports the script ends with exit status 0. *)
Theorem only_a_print_outside_the_try_escapes :
  (forall src out w e,
     fst (Console.generate_android_icons accepts src out w) = inl e ->
     accepts hint_line = Some e
     \/ exists e0, accepts (error_line e0) = Some e)
  /\ (forall w e,
        fst (Console.script accepts imported w) = inl e ->
        imported = Some e
        \/ exists line,
             accepts line = Some e
             /\ (line = hint_line \/ (exists e0, line = error_line e0)
                 \/ In line not_found_lines))
  /\ ((forall line, accepts line = None) ->
      (forall src out w,
         fst (Console.generate_android_icons accepts src out w) = inr tt)
      /\ (imported = None ->
          forall w, exit_status (fst (Console.script accepts imported w)) = 0)).
Proof.
  assert (Hmain : forall w e,
            fst (Console.main accepts w) = inl e ->
            exists line,
              accepts line = Some e
              /\ (line = hint_line \/ (exists e0, line = error_line e0)
                  \/ In line not_found_lines)).
  { intros w e. unfold Console.main, bind, os_path_exists.
    destruct (sys_path_exists source_image (fs w)).
    - intros K. apply generate_raises in K as [K|(e0 & K)]; eauto 6.
    - unfold Console.print.
      destruct (accepts ("❌ Source image not found: " ++ source_image)%string)
        as [e1|] eqn:E1; cbn [fst].
      + intros K. injection K as ->. eexists. split; [exact E1|].
        right. right. now left.
      + destruct (accepts
                    "Please save your logo image as assets/images/app_logo.png")
          as [e1|] eqn:E2; cbn [fst]; [|discriminate].
        intros K. injection K as ->. eexists. split; [exact E2|].
        right. right. right. now left. }
  split; [exact generate_raises|]. split.
  { intros w e. unfold Console.script. destruct imported as [e1|].
    - cbn [fst]. intros K. injection K as ->. now left.
    - intros K. right. now apply Hmain in K. }
  intros Hall. split.
  - intros src out w.
    destruct (fst (Console.generate_android_icons accepts src out w))
      as [e|[]] eqn:E; [|reflexivity].
    apply generate_raises in E as [K|(e0 & K)]; rewrite Hall in K;
      discriminate.
  - intros -> w. unfold Console.script.
    destruct (fst (Console.main accepts w)) as [e|[]] eqn:E;
      [|reflexivity].
    apply Hmain in E as (line & K & _). rewrite Hall in K. discriminate.
Qed.

End ConsoleFacts.

Lemma only_a_print_outside_the_try_escapes_witness :
  fst (Console.generate_android_icons Console.cp1252
         source_image android_res_dir (boot Sim.fs_text))
  = inl (Console.cannot_encode "\u274c")
  /\ (Console.cp1252 hint_line = Some (Console.cannot_encode "\u274c")
      \/ exists e0,
           Console.cp1252 (error_line e0)
           = Some (Console.cannot_encode "\u274c"))
  /\ (forall line, Console.utf8 line = None)
  /\ exit_status (fst (Console.script Console.utf8 None (boot Sim.fs_text)))
     = 0.
Proof.
  assert (H : fst (Console.generate_android_icons Console.cp1252
                     source_image android_res_dir (boot Sim.fs_text))
              = inl (Console.cannot_encode "\u274c"))
    by (vm_compute; reflexivity).
  assert (Hu : forall line, Console.utf8 line = None) by reflexivity.
  split; [exact H|]. split.
  - exact (proj1 (only_a_print_outside_the_try_escapes
                    (P := Sim.SimPlatform) Console.cp1252 None) _ _ _ _ H).
  - split; [exact Hu|].
    exact (proj2 (proj2 (proj2 (only_a_print_outside_the_try_escapes
                                  (P := Sim.SimPlatform) Console.utf8 None))
                    Hu) eq_refl (boot Sim.fs_text)).
Defined.

(** C9, as worded, fails: Pillow is installed, the logo path holds a text
    file and the standard output is in cp1252.  [Image.open] raises, the
    handler catches it, and the handler's own first [print] raises
    [UnicodeEncodeError], which reaches the caller. *)
Lemma handler_print_reaches_the_caller :
  ~ @Console.never_propagates Sim.SimPlatform Console.cp1252 None.
Proof.
  intros [H _].
  specialize (H source_image android_res_dir (boot Sim.fs_text)).
  vm_compute in H. discriminate H.
Qed.

(** The same terminal with the logo in place: the five icons are written,
    the success line is refused, the handler's error line is refused as
    well, and the script ends with exit status 1.  Without the logo the
    [else] branch ends the same way. *)
Example icons_written_and_exit_status_1 :
  saved_paths
    (calls (snd (Console.script Console.cp1252 None (boot Sim.fs_logo))))
  = map (fun en => icon_path android_res_dir (fst en)) sizes
  /\ exit_status
       (fst (Console.script Console.cp1252 None (boot Sim.fs_logo))) = 1
  /\ exit_status
       (fst (Console.script Console.cp1252 None (boot Sim.fs_empty))) = 1.
Proof. vm_compute. repeat split. Qed.
